(** * clock-ani: the analog clock component

    A shallow embedding of the [App] component: the angle calculator [getAngles],
    the second-aligned ticker [runTick], the animation-frame [loop], the two
    effect clean-ups and the parts of the rendered tree that depend on time.

    Numbers.  The values handled by the component are JavaScript Numbers.
    The integral ones (date fields, timer handles, epoch milliseconds) are
    modelled by [Z]; the remainder operator [%] is [Z.rem] (the sign follows the
    dividend).  The hand angles are modelled by exact rationals [Q]: every
    operation of [getAngles] is an addition, a multiplication or a division by
    a non-zero constant, and the theorems on the angles do not account for
    binary64 rounding.  [Binary64.getAngles] is the same function on binary64
    numbers; it is run on the dates of the scenarios and on the date with the
    largest angles. *)

From Stdlib Require Import ZArith QArith Lqa Lia List Bool String Ascii PrimFloat.
Import ListNotations.

Local Open Scope Z_scope.

(** ** Dates *)

(** A JavaScript [Date] as the component observes it: through the four
    local-time getters. *)
Record Date : Set := mkDate {
  getHours : Z;
  getMinutes : Z;
  getSeconds : Z;
  getMilliseconds : Z
}.

(** The ranges of the getters (the PointInTime of the specification). *)
Definition validDate (d : Date) : Prop :=
  0 <= getHours d < 24 /\ 0 <= getMinutes d < 60 /\
  0 <= getSeconds d < 60 /\ 0 <= getMilliseconds d < 1000.

(** [new Date()] when the system clock shows [t] milliseconds since the
    epoch, in a time zone [tz] minutes east of UTC. *)
Definition newDate (tz t : Z) : Date :=
  let l := t + tz * 60000 in
  {| getHours := (l / 3600000) mod 24;
     getMinutes := (l / 60000) mod 60;
     getSeconds := (l / 1000) mod 60;
     getMilliseconds := l mod 1000 |}.

(** ** The angle calculator *)

Record HandAngles : Set := mkAngles {
  secondsAngle : Q;
  minutesAngle : Q;
  hoursAngle : Q
}.

Definition getAngles (date : Date) : HandAngles :=
  let ms := inject_Z (getMilliseconds date) in
  let seconds := (inject_Z (getSeconds date) + ms / 1000)%Q in
  let minutes := (inject_Z (getMinutes date) + seconds / 60)%Q in
  let hours := (inject_Z (Z.rem (getHours date) 12) + minutes / 60)%Q in
  {| secondsAngle := (seconds * 6)%Q;
     minutesAngle := (minutes * 6)%Q;
     hoursAngle := (hours * 30)%Q |}.

(** The same function on binary64 numbers, the Numbers of JavaScript, to run
    it on given dates.  An integral Number is built from its binary digits,
    without rounding below 2^53. *)
Module Binary64.

Fixpoint numberOfPositive (p : positive) : float :=
  match p with
  | xH => 1
  | xO q => 2 * numberOfPositive q
  | xI q => 2 * numberOfPositive q + 1
  end%float.

Definition numberOfZ (z : Z) : float :=
  match z with
  | Z0 => 0
  | Zpos p => numberOfPositive p
  | Zneg p => - numberOfPositive p
  end%float.

Record HandAngles : Set := mkAngles {
  secondsAngle : float;
  minutesAngle : float;
  hoursAngle : float
}.

Definition getAngles (date : Date) : HandAngles :=
  let ms := numberOfZ (getMilliseconds date) in
  let seconds := (numberOfZ (getSeconds date) + ms / 1000)%float in
  let minutes := (numberOfZ (getMinutes date) + seconds / 60)%float in
  let hours := (numberOfZ (Z.rem (getHours date) 12) + minutes / 60)%float in
  {| secondsAngle := (seconds * 6)%float;
     minutesAngle := (minutes * 6)%float;
     hoursAngle := (hours * 30)%float |}.

End Binary64.

(** The contract of section 4.1, written from its three formulas, with the
    mathematical [mod] for the hour. *)
Module Contract.

Definition secondsFraction (second millisecond : Z) : Q :=
  (inject_Z second + inject_Z millisecond / 1000)%Q.

Definition minutesFraction (minute second millisecond : Z) : Q :=
  (inject_Z minute + secondsFraction second millisecond / 60)%Q.

Definition specSecondsAngle (second millisecond : Z) : Q :=
  (secondsFraction second millisecond * 6)%Q.

Definition specMinutesAngle (minute second millisecond : Z) : Q :=
  (minutesFraction minute second millisecond * 6)%Q.

Definition specHoursAngle (hour minute second millisecond : Z) : Q :=
  ((inject_Z (hour mod 12) + minutesFraction minute second millisecond / 60) * 30)%Q.

End Contract.

(** ** The view *)

(** The render function calls [new Date()] six times while it classifies the
    minute labels, twice for each of second, minute and hour; the six values
    are inputs of the model, in the order of the calls. *)
Record ClockReads : Set := mkReads {
  secondTest : Date;
  secondValue : Date;
  minuteTest : Date;
  minuteValue : Date;
  hourTest : Date;
  hourValue : Date
}.

(** All six calls made at one instant. *)
Definition readsAt (t : Date) : ClockReads := mkReads t t t t t t.

(** A [<text>] element of the dial: the angle of its position on the circle
    in degrees (the coordinates are [cx + sin angle * radius] and
    [cy - cos angle * radius], not modelled), its class and its content. *)
Record SvgText : Set := mkText {
  angleDeg : Z;
  className : string;
  label : Z
}.

Definition currentSecond (r : ClockReads) : Z :=
  if getSeconds (secondTest r) =? 0 then 60 else getSeconds (secondValue r).

Definition currentMinute (r : ClockReads) : Z :=
  if getMinutes (minuteTest r) =? 0 then 60 else getMinutes (minuteValue r).

Definition currentHour (r : ClockReads) : Z :=
  if Z.rem (getHours (hourTest r)) 12 =? 0 then 12
  else Z.rem (getHours (hourValue r)) 12.

Definition classNames (r : ClockReads) (i : Z) : string :=
  let isActive := i =? currentSecond r in
  let isActiveMinute := i =? currentMinute r in
  let isActiveHour := i =? currentHour r in
  if isActive then "svg-minute active-second"
  else if isActiveMinute then "svg-minute active-minute"
  else if isActiveHour then "svg-minute active-hour"
  else "svg-minute".

Definition hourLabels : list SvgText :=
  map (fun n : nat =>
         let i := Z.of_nat n in
         {| angleDeg := i * 30;
            className := "svg-num";
            label := if i =? 0 then 12 else i |})
      (seq 0 12).

Definition minuteLabels (r : ClockReads) : list SvgText :=
  map (fun idx : nat =>
         let i := Z.of_nat idx + 1 in
         {| angleDeg := i * 6;
            className := classNames r i;
            label := i |})
      (seq 0 60).

(** What a render shows of the time. *)
Record Rendered : Set := mkRendered {
  role : string;
  ariaLabel : string;
  svgTexts : list SvgText;
  hourHand : Q;
  minuteHand : Q;
  secondHand : Q;
  digital : string
}.

Section View.

(** [Date.prototype.toLocaleTimeString], which depends on the locale of the
    browser. *)
Variable toLocaleTimeString : Date -> string.

Definition formatDigital (d : Date) : string := toLocaleTimeString d.

(** The body of [App] after the hooks: [now] is the state cell. *)
Definition render (now : Date) (r : ClockReads) : Rendered :=
  let angles := getAngles now in
  {| role := "img";
     ariaLabel := "Analog clock showing " ++ formatDigital now;
     svgTexts := minuteLabels r ++ hourLabels;
     hourHand := hoursAngle angles;
     minuteHand := minutesAngle angles;
     secondHand := secondsAngle angles;
     digital := formatDigital now |}.

End View.

(** One locale's [toLocaleTimeString]: the 24-hour format [HH:MM:SS]. *)
Definition digit (n : Z) : ascii := ascii_of_nat (48 + Z.to_nat n).

Definition twoDigits (n : Z) : string :=
  String (digit (n / 10)) (String (digit (n mod 10)) EmptyString).

Definition hhmmss (d : Date) : string :=
  twoDigits (getHours d) ++ ":" ++ twoDigits (getMinutes d) ++ ":" ++
  twoDigits (getSeconds d).

(** The number of elements of a list of labels that carry a class, and the
    class of the minute label numbered [i]. *)
Definition countClass (c : string) (l : list SvgText) : nat :=
  List.length (filter (fun t => String.eqb (className t) c) l).

Definition classOfLabel (l : list SvgText) (i : Z) : option string :=
  option_map className (find (fun t => label t =? i) l).

(** ** The event loop *)

(** A pending [setTimeout(runTick, delay)]: the handle returned to the caller,
    the delay asked for and the clock value from which the platform may run
    the callback. *)
Record Timeout : Set := mkTimeout {
  timeoutHandle : Z;
  timeoutDelay : Z;
  timeoutDue : Z
}.

(** A pending [requestAnimationFrame(loop)]: the handle and the run of the
    second effect whose [loop] closure was passed. *)
Record Frame : Set := mkFrame {
  frameHandle : Z;
  frameEffect : nat
}.

(** The component instance and the platform it runs on.  [now] is the state
    cell of [useState] and [published] the arguments of the calls of
    [setNow], latest first; [tickRef] and [rafRef] are the [current] fields of
    the two refs ([None] for [null]); [running] lists the runs of the second
    effect whose variable [running] is [true]. *)
Record World : Set := mkWorld {
  clock : Z;
  now : Date;
  published : list Date;
  tickRef : option Z;
  rafRef : option Z;
  running : list nat;
  effectId : nat;
  mounted : bool;
  timeouts : list Timeout;
  frames : list Frame;
  nextTimeout : Z;
  nextFrame : Z
}.

Definition withClock (c : Z) (w : World) : World :=
  mkWorld c (now w) (published w) (tickRef w) (rafRef w) (running w)
    (effectId w) (mounted w) (timeouts w) (frames w) (nextTimeout w)
    (nextFrame w).

Definition setNow (d : Date) (w : World) : World :=
  mkWorld (clock w) d (d :: published w) (tickRef w) (rafRef w) (running w)
    (effectId w) (mounted w) (timeouts w) (frames w) (nextTimeout w)
    (nextFrame w).

Definition withTickRef (r : option Z) (w : World) : World :=
  mkWorld (clock w) (now w) (published w) r (rafRef w) (running w)
    (effectId w) (mounted w) (timeouts w) (frames w) (nextTimeout w)
    (nextFrame w).

Definition withRafRef (r : option Z) (w : World) : World :=
  mkWorld (clock w) (now w) (published w) (tickRef w) r (running w)
    (effectId w) (mounted w) (timeouts w) (frames w) (nextTimeout w)
    (nextFrame w).

Definition withRunning (l : list nat) (w : World) : World :=
  mkWorld (clock w) (now w) (published w) (tickRef w) (rafRef w) l
    (effectId w) (mounted w) (timeouts w) (frames w) (nextTimeout w)
    (nextFrame w).

Definition withMounted (g : nat) (m : bool) (w : World) : World :=
  mkWorld (clock w) (now w) (published w) (tickRef w) (rafRef w) (running w)
    g m (timeouts w) (frames w) (nextTimeout w) (nextFrame w).

Definition withTimeouts (l : list Timeout) (n : Z) (w : World) : World :=
  mkWorld (clock w) (now w) (published w) (tickRef w) (rafRef w) (running w)
    (effectId w) (mounted w) l (frames w) n (nextFrame w).

Definition withFrames (l : list Frame) (n : Z) (w : World) : World :=
  mkWorld (clock w) (now w) (published w) (tickRef w) (rafRef w) (running w)
    (effectId w) (mounted w) (timeouts w) l (nextTimeout w) n.

(** *** Platform functions *)

(** A negative delay counts as zero. *)
Definition setTimeout (delay : Z) (w : World) : Z * World :=
  let h := nextTimeout w in
  (h, withTimeouts
        (timeouts w ++ [mkTimeout h delay (clock w + Z.max 0 delay)])
        (h + 1) w).

Definition clearTimeout (h : Z) (w : World) : World :=
  withTimeouts (filter (fun t => negb (timeoutHandle t =? h)) (timeouts w))
    (nextTimeout w) w.

Definition requestAnimationFrame (g : nat) (w : World) : Z * World :=
  let h := nextFrame w in
  (h, withFrames (frames w ++ [mkFrame h g]) (h + 1) w).

Definition cancelAnimationFrame (h : Z) (w : World) : World :=
  withFrames (filter (fun f => negb (frameHandle f =? h)) (frames w))
    (nextFrame w) w.

(** The condition of [if (ref.current)]: [null] and [0] are falsy. *)
Definition truthy (r : option Z) : bool :=
  match r with
  | Some h => negb (h =? 0)
  | None => false
  end.

Definition handleOf (r : option Z) : Z :=
  match r with
  | Some h => h
  | None => 0
  end.

Section Component.

(** The time zone of the browser, in minutes east of UTC. *)
Variable tz : Z.

(** *** The ticker *)

(** [c1] is the clock at [new Date()], [c2] the value of [Date.now()]. *)
Definition runTick (c1 c2 : Z) (w : World) : World :=
  let w1 := setNow (newDate tz c1) (withClock c1 w) in
  let w2 := withClock c2 w1 in
  let ms := Z.rem c2 1000 in
  let (h, w3) := setTimeout (1000 - ms) w2 in
  withTickRef (Some h) w3.

(** The clean-up returned by the first effect. *)
Definition cleanupTicker (w : World) : World :=
  let w1 := if truthy (tickRef w) then clearTimeout (handleOf (tickRef w)) w
            else w in
  if truthy (rafRef w1) then cancelAnimationFrame (handleOf (rafRef w1)) w1
  else w1.

(** *** The refresher *)

Definition isRunning (g : nat) (w : World) : bool :=
  existsb (Nat.eqb g) (running w).

(** The closure [loop] created by run [g] of the second effect. *)
Definition loop (g : nat) (w : World) : World :=
  if negb (isRunning g w) then w
  else
    let (h, w1) := requestAnimationFrame g w in
    withRafRef (Some h) w1.

(** The body of the second effect, run [g]. *)
Definition startRefresher (g : nat) (w : World) : World :=
  let w1 := withRunning (g :: running w) w in
  let (h, w2) := requestAnimationFrame g w1 in
  withRafRef (Some h) w2.

(** The clean-up returned by run [g] of the second effect. *)
Definition cleanupRefresher (g : nat) (w : World) : World :=
  let w1 := withRunning (filter (fun g' => negb (Nat.eqb g g')) (running w)) w in
  if truthy (rafRef w1) then cancelAnimationFrame (handleOf (rafRef w1)) w1
  else w1.

(** *** Life cycle and callbacks *)

(** What can happen to the component: its effects run (the first effect calls
    [runTick()] itself), a pending timeout or frame callback is run by the
    platform, or the clean-ups run.  Each event carries the clock values read
    while it is handled.  Both effects have an empty dependency list, so they
    run when the view is mounted and their clean-ups when it is unmounted;
    the state cell and the refs are kept if the effects run again. *)
Inductive Event : Set :=
| Mount (c1 c2 : Z)
| TimeoutFires (h c1 c2 : Z)
| FrameFires (h c : Z)
| Unmount (c : Z).

Definition mountEffects (c1 c2 : Z) (w : World) : World :=
  let g := S (effectId w) in
  startRefresher g (runTick c1 c2 (withMounted g true w)).

Definition unmountEffects (w : World) : World :=
  withMounted (effectId w) false
    (cleanupRefresher (effectId w) (cleanupTicker w)).

(** The platform runs a timeout callback no earlier than its due time and
    removes it from the pending ones; the clock never goes back. *)
Definition step (e : Event) (w : World) : option World :=
  match e with
  | Mount c1 c2 =>
      if negb (mounted w) && (clock w <=? c1) && (c1 <=? c2)
      then Some (mountEffects c1 c2 w)
      else None
  | TimeoutFires h c1 c2 =>
      match find (fun t => timeoutHandle t =? h) (timeouts w) with
      | Some t =>
          if (timeoutDue t <=? c1) && (clock w <=? c1) && (c1 <=? c2)
          then Some (runTick c1 c2 (clearTimeout h w))
          else None
      | None => None
      end
  | FrameFires h c =>
      match find (fun f => frameHandle f =? h) (frames w) with
      | Some f =>
          if clock w <=? c
          then Some (loop (frameEffect f) (withClock c (cancelAnimationFrame h w)))
          else None
      | None => None
      end
  | Unmount c =>
      if mounted w && (clock w <=? c)
      then Some (unmountEffects (withClock c w))
      else None
  end.

Fixpoint run (tr : list Event) (w : World) : option World :=
  match tr with
  | [] => Some w
  | e :: tr' =>
      match step e w with
      | Some w' => run tr' w'
      | None => None
      end
  end.

(** The component before its effects have run: the state cell holds the
    value of the initialiser [() => new Date()]. *)
Definition initWorld (c0 : Z) : World :=
  mkWorld c0 (newDate tz c0) [] None None [] 0 false [] [] 1 1.

Definition reachable (w : World) : Prop :=
  exists c0 tr, run tr (initWorld c0) = Some w.

(** The events in which [runTick] runs, the two clock values it reads in
    each, and the clock at the start of each along a trace. *)
Definition isTick (e : Event) : bool :=
  match e with
  | Mount _ _ | TimeoutFires _ _ _ => true
  | FrameFires _ _ | Unmount _ => false
  end.

Definition tickReads (e : Event) : option (Z * Z) :=
  match e with
  | Mount c1 c2 | TimeoutFires _ c1 c2 => Some (c1, c2)
  | FrameFires _ _ | Unmount _ => None
  end.

Definition isMount (e : Event) : bool :=
  match e with
  | Mount _ _ => true
  | _ => false
  end.

Definition isFrame (e : Event) : bool :=
  match e with
  | FrameFires _ _ => true
  | _ => false
  end.

Fixpoint firingTimes (tr : list Event) : list Z :=
  match tr with
  | [] => []
  | Mount c1 _ :: tr' => c1 :: firingTimes tr'
  | TimeoutFires _ c1 _ :: tr' => c1 :: firingTimes tr'
  | _ :: tr' => firingTimes tr'
  end.


(** What holds of every world the component can be in: a pending callback
    is the one its ref points to, and nothing is pending while unmounted. *)
Definition Inv (w : World) : Prop :=
  (forall t, In t (timeouts w) ->
     tickRef w = Some (timeoutHandle t) /\ timeoutHandle t <> 0) /\
  (forall f, In f (frames w) ->
     rafRef w = Some (frameHandle f) /\ frameHandle f <> 0) /\
  (mounted w = false -> timeouts w = [] /\ frames w = []) /\
  0 < nextTimeout w /\ 0 < nextFrame w.

End Component.

(** ** Measures used to state further properties *)

(** The milliseconds a date has gone into its minute, its hour and its
    half-day, counted from the getters as [getAngles] combines them. *)
Definition millisOfMinute (d : Date) : Z :=
  1000 * getSeconds d + getMilliseconds d.

Definition millisOfHour (d : Date) : Z :=
  60000 * getMinutes d + millisOfMinute d.

Definition millisOfHalfDay (d : Date) : Z :=
  3600000 * Z.rem (getHours d) 12 + millisOfHour d.

(** The angle at which the element with content [i] is placed. *)
Definition angleOfLabel (l : list SvgText) (i : Z) : option Z :=
  option_map angleDeg (find (fun t => label t =? i) l).

(** The integers from 0 below [n], and the same as binary64 numbers. *)
Definition upto (n : nat) : list Z := map Z.of_nat (seq 0 n).

Definition numbers (n : nat) : list float := map Binary64.numberOfZ (upto n).

(** An angle of at least 0 and less than 360 degrees, on binary64 numbers. *)
Definition inRange (a : float) : bool := ((0 <=? a) && (a <? 360))%float.

(** [p] holds of the three angles [Binary64.getAngles] computes for every
    hour from 0 to 11, minute, second and millisecond; the intermediate
    values are computed once for the dates that share them. *)
Definition allAngles (p : float -> bool) : bool :=
  let hs := numbers 12 in
  let ms := numbers 60 in
  let ss := numbers 60 in
  let mss := numbers 1000 in
  forallb (fun fs => forallb (fun fms =>
    let seconds := (fs + fms / 1000)%float in
    p (seconds * 6)%float &&
    forallb (fun fm =>
      let minutes := (fm + seconds / 60)%float in
      p (minutes * 6)%float &&
      forallb (fun fh => p ((fh + minutes / 60) * 30)%float) hs) ms) mss) ss.

(** The date one millisecond later, within the minute. *)
Definition nextMillisecond (d : Date) : Date :=
  if getMilliseconds d <? 999
  then mkDate (getHours d) (getMinutes d) (getSeconds d) (getMilliseconds d + 1)
  else mkDate (getHours d) (getMinutes d) (getSeconds d + 1) 0.

(** The second hand moves forward from every second [s] and millisecond [x]
    of the minute but the last to the next one. *)
Definition allSecondSteps : bool :=
  let ss := upto 60 in
  let mss := upto 1000 in
  forallb (fun s => forallb (fun x =>
    let d := mkDate 0 0 s x in
    (((s =? 59) && (x =? 999))%bool ||
     (Binary64.secondsAngle (Binary64.getAngles d) <?
      Binary64.secondsAngle (Binary64.getAngles (nextMillisecond d)))%float)%bool)
    mss) ss.

(** The callback ref of the dial, [(el) => { if (el && !dialRef.current)
    dialRef.current = el }]: [el] is the element or [null], the second
    argument the content of [dialRef] before the call and the result its
    content after it.  An element is an object, hence truthy. *)
Definition dialRefCallback {Element : Type} (el current : option Element) :
  option Element :=
  match el, current with
  | Some _, None => el
  | _, _ => current
  end.

(** The content of [dialRef] after a sequence of calls of the callback. *)
Definition dialRefAfter {Element : Type}
  (calls : list (option Element)) (current : option Element) : option Element :=
  fold_left (fun cur el => dialRefCallback el cur) calls current.

(** The first element among the arguments of a sequence of calls. *)
Fixpoint firstElement {Element : Type} (calls : list (option Element)) :
  option Element :=
  match calls with
  | [] => None
  | Some e :: _ => Some e
  | None :: rest => firstElement rest
  end.

(** The numbers that name a minute label. *)
Definition onDial (k : Z) : bool := (1 <=? k) && (k <=? 60).

(** The ticker and the refresher are armed exactly while the view is
    mounted: one timeout and one frame are pending, each the one its ref
    points to, and the only running loop is the one of the current effect. *)
Definition Armed (w : World) : Prop :=
  if mounted w
  then (exists t, timeouts w = [t] /\ tickRef w = Some (timeoutHandle t)) /\
       (exists f, frames w = [f] /\ rafRef w = Some (frameHandle f) /\
                  frameEffect f = effectId w) /\
       running w = [effectId w]
  else timeouts w = [] /\ frames w = [] /\ running w = [].

(** ** Properties of dates *)

Lemma newDate_valid (tz t : Z) : validDate (newDate tz t).
Proof.
  unfold validDate, newDate; cbn -[Z.div Z.modulo].
  repeat split; try (apply Z.mod_pos_bound; lia).
Qed.

(** On the hours a [Date] can return, [%] is the mathematical remainder. *)
Lemma hours_rem_12 (d : Date) :
  validDate d -> Z.rem (getHours d) 12 = getHours d mod 12.
Proof.
  intros (Hh & _). apply Z.rem_mod_nonneg; lia.
Qed.

Lemma hours_rem_12_bound (d : Date) :
  validDate d -> 0 <= Z.rem (getHours d) 12 <= 11.
Proof.
  intros Hv. rewrite (hours_rem_12 d Hv).
  pose proof (Z.mod_pos_bound (getHours d) 12). lia.
Qed.

(** The ranges of a valid date, moved to the rationals. *)
Lemma validDate_Q (d : Date) :
  validDate d ->
  (0 <= inject_Z (Z.rem (getHours d) 12) <= 11 /\
   0 <= inject_Z (getMinutes d) <= 59 /\
   0 <= inject_Z (getSeconds d) <= 59 /\
   0 <= inject_Z (getMilliseconds d) <= 999)%Q.
Proof.
  intros Hv. pose proof (hours_rem_12_bound d Hv) as Hh.
  destruct Hv as (_ & Hm & Hs & Hms).
  change 0%Q with (inject_Z 0). change 11%Q with (inject_Z 11).
  change 59%Q with (inject_Z 59). change 999%Q with (inject_Z 999).
  rewrite <- !Zle_Qle. lia.
Qed.

(** ** Properties of the angle calculator *)

(** C1. For every valid PointInTime the three angles returned by
    [getAngles] are the ones given by the formulas of the contract:
    secondsAngle = (second + millisecond/1000) * 6,
    minutesAngle = (minute + (second + millisecond/1000)/60) * 6 and
    hoursAngle = ((hour mod 12) + (minute + (second + millisecond/1000)/60)/60) * 30. *)
Theorem getAngles_contract (d : Date) :
  validDate d ->
  secondsAngle (getAngles d) =
    Contract.specSecondsAngle (getSeconds d) (getMilliseconds d) /\
  minutesAngle (getAngles d) =
    Contract.specMinutesAngle (getMinutes d) (getSeconds d) (getMilliseconds d) /\
  hoursAngle (getAngles d) =
    Contract.specHoursAngle (getHours d) (getMinutes d) (getSeconds d)
      (getMilliseconds d).
Proof.
  intros Hv. repeat split.
  unfold Contract.specHoursAngle. rewrite <- (hours_rem_12 d Hv). reflexivity.
Qed.

Lemma getAngles_contract_witness :
  validDate (mkDate 15 5 9 500) /\
  hoursAngle (getAngles (mkDate 15 5 9 500)) =
    Contract.specHoursAngle 15 5 9 500.
Proof.
  assert (Hv : validDate (mkDate 15 5 9 500)) by (unfold validDate; simpl; lia).
  split; [exact Hv | exact (proj2 (proj2 (getAngles_contract _ Hv)))].
Defined.

(** C2. For every valid PointInTime the hour hand's angle is at least 0 and
    strictly below 360 degrees. *)
Theorem hoursAngle_range (d : Date) :
  validDate d ->
  (0 <= hoursAngle (getAngles d) /\ hoursAngle (getAngles d) < 360)%Q.
Proof.
  intros Hv. destruct (validDate_Q d Hv) as (Hh & Hm & Hs & Hms).
  unfold getAngles; cbn [hoursAngle].
  unfold Qdiv. change (/ 1000)%Q with (1 # 1000)%Q. change (/ 60)%Q with (1 # 60)%Q.
  split; lra.
Qed.

Lemma hoursAngle_range_witness :
  validDate (mkDate 23 59 59 999) /\
  (0 <= hoursAngle (getAngles (mkDate 23 59 59 999)) /\
   hoursAngle (getAngles (mkDate 23 59 59 999)) < 360)%Q.
Proof.
  assert (Hv : validDate (mkDate 23 59 59 999)) by (unfold validDate; simpl; lia).
  split; [exact Hv | exact (hoursAngle_range _ Hv)].
Defined.

(** C10. For every valid PointInTime the second hand's and the minute hand's
    angles are both at least 0 and strictly below 360 degrees. *)
Theorem secondsAngle_minutesAngle_range (d : Date) :
  validDate d ->
  (0 <= secondsAngle (getAngles d) /\ secondsAngle (getAngles d) < 360)%Q /\
  (0 <= minutesAngle (getAngles d) /\ minutesAngle (getAngles d) < 360)%Q.
Proof.
  intros Hv. destruct (validDate_Q d Hv) as (Hh & Hm & Hs & Hms).
  unfold getAngles; cbn [secondsAngle minutesAngle].
  unfold Qdiv. change (/ 1000)%Q with (1 # 1000)%Q. change (/ 60)%Q with (1 # 60)%Q.
  repeat split; lra.
Qed.

Lemma secondsAngle_minutesAngle_range_witness :
  validDate (mkDate 23 59 59 999) /\
  (0 <= secondsAngle (getAngles (mkDate 23 59 59 999)) /\
   secondsAngle (getAngles (mkDate 23 59 59 999)) < 360)%Q /\
  (0 <= minutesAngle (getAngles (mkDate 23 59 59 999)) /\
   minutesAngle (getAngles (mkDate 23 59 59 999)) < 360)%Q.
Proof.
  assert (Hv : validDate (mkDate 23 59 59 999)) by (unfold validDate; simpl; lia).
  split; [exact Hv | exact (secondsAngle_minutesAngle_range _ Hv)].
Defined.

(** The scenarios of section 8: 03:05:09.500 and midnight. *)
Example getAngles_030509_500 :
  (secondsAngle (getAngles (mkDate 3 5 9 500)) == 57)%Q /\
  (minutesAngle (getAngles (mkDate 3 5 9 500)) == 3095 # 100)%Q /\
  (hoursAngle (getAngles (mkDate 3 5 9 500)) == 22219 # 240)%Q.
Proof. repeat split. Qed.

Example getAngles_midnight :
  (secondsAngle (getAngles (mkDate 0 0 0 0)) == 0)%Q /\
  (minutesAngle (getAngles (mkDate 0 0 0 0)) == 0)%Q /\
  (hoursAngle (getAngles (mkDate 0 0 0 0)) == 0)%Q /\
  option_map label (nth_error hourLabels 0) = Some 12.
Proof. repeat split. Qed.

(** On binary64 numbers: the second hand of 03:05:09.500 is at 57 degrees
    exactly, the hands of midnight are at 0, and at the last millisecond of
    the day, where the three angles are largest, none is rounded up to 360. *)
Example binary64_030509_500 :
  Binary64.secondsAngle (Binary64.getAngles (mkDate 3 5 9 500)) = 57%float.
Proof. vm_compute. reflexivity. Qed.

Example binary64_midnight :
  Binary64.getAngles (mkDate 0 0 0 0) = Binary64.mkAngles 0 0 0.
Proof. vm_compute. reflexivity. Qed.

Example binary64_235959_999 :
  let a := Binary64.getAngles (mkDate 23 59 59 999) in
  (Binary64.secondsAngle a <? 360)%float = true /\
  (Binary64.minutesAngle a <? 360)%float = true /\
  (Binary64.hoursAngle a <? 360)%float = true /\
  (359.5 <? Binary64.secondsAngle a)%float = true /\
  (359.5 <? Binary64.minutesAngle a)%float = true /\
  (359.5 <? Binary64.hoursAngle a)%float = true.
Proof. vm_compute. repeat split. Qed.

(** ** Properties of the view *)

Local Open Scope string_scope.

(** *** Counting in a list built over [seq] *)

Lemma filter_map_length {A B : Type} (p : B -> bool) (f : A -> B) (l : list A) :
  List.length (filter p (map f l)) = List.length (filter (fun a => p (f a)) l).
Proof.
  induction l as [|a l IH]; simpl; [reflexivity|].
  destruct (p (f a)); simpl; rewrite IH; reflexivity.
Qed.

Lemma count_seq_none (p : nat -> bool) (n a : nat) :
  (forall j, (a <= j < a + n)%nat -> p j = false) ->
  List.length (filter p (seq a n)) = 0%nat.
Proof.
  revert a; induction n as [|n IH]; intros a Hp; simpl; [reflexivity|].
  rewrite (Hp a) by lia. apply IH. intros j Hj. apply Hp. lia.
Qed.

Lemma count_seq_unique (p : nat -> bool) (k n a : nat) :
  (a <= k < a + n)%nat ->
  (forall j, (a <= j < a + n)%nat -> p j = true <-> j = k) ->
  List.length (filter p (seq a n)) = 1%nat.
Proof.
  revert a; induction n as [|n IH]; intros a Hk Hp; [lia|]. simpl.
  destruct (Nat.eq_dec a k) as [->|Hne].
  - rewrite (proj2 (Hp k ltac:(lia)) eq_refl). simpl. f_equal.
    apply count_seq_none. intros j Hj.
    destruct (p j) eqn:E; [|reflexivity].
    apply Hp in E; lia.
  - destruct (p a) eqn:E.
    + apply Hp in E; lia.
    + apply IH; [lia|]. intros j Hj. apply Hp. lia.
Qed.

Lemma find_label_seq (f : nat -> SvgText) (i : Z) (n a : nat) :
  (forall idx, label (f idx) = Z.of_nat idx + 1) ->
  (Z.of_nat a + 1 <= i <= Z.of_nat a + Z.of_nat n)%Z ->
  find (fun t => (label t =? i)%Z) (map f (seq a n)) = Some (f (Z.to_nat (i - 1))).
Proof.
  intros Hf. revert a; induction n as [|n IH]; intros a Hi; [lia|]. simpl.
  rewrite Hf. destruct (Z.eqb_spec (Z.of_nat a + 1) i) as [E|E].
  - do 2 f_equal. lia.
  - apply IH. lia.
Qed.

(** *** The class of a minute label *)

(** The numbers the six reads yield when they are made at one instant of a
    valid date. *)
Lemma current_at (t : Date) :
  validDate t ->
  currentSecond (readsAt t) = (if getSeconds t =? 0 then 60 else getSeconds t)%Z /\
  currentMinute (readsAt t) = (if getMinutes t =? 0 then 60 else getMinutes t)%Z /\
  currentHour (readsAt t) =
    (if getHours t mod 12 =? 0 then 12 else getHours t mod 12)%Z /\
  (1 <= currentSecond (readsAt t) <= 60)%Z /\
  (1 <= currentMinute (readsAt t) <= 60)%Z /\
  (1 <= currentHour (readsAt t) <= 12)%Z.
Proof.
  intros Hv. pose proof (hours_rem_12 t Hv) as Hr.
  pose proof (hours_rem_12_bound t Hv) as Hb.
  destruct Hv as (Hh & Hm & Hs & Hms).
  unfold currentSecond, currentMinute, currentHour, readsAt; cbn.
  rewrite <- Hr.
  repeat split; try reflexivity;
    repeat match goal with
           | |- context [(?x =? 0)%Z] => destruct (Z.eqb_spec x 0)
           end; lia.
Qed.

Lemma classNames_second (r : ClockReads) (i : Z) :
  classNames r i = "svg-minute active-second" <-> i = currentSecond r.
Proof.
  unfold classNames.
  destruct (Z.eqb_spec i (currentSecond r)); [tauto|].
  destruct (i =? currentMinute r)%Z; [split; [discriminate|tauto]|].
  destruct (i =? currentHour r)%Z; split; (discriminate || tauto).
Qed.

Lemma classNames_minute (r : ClockReads) (i : Z) :
  classNames r i = "svg-minute active-minute" <->
  i = currentMinute r /\ i <> currentSecond r.
Proof.
  unfold classNames.
  destruct (Z.eqb_spec i (currentSecond r)); [split; [discriminate|tauto]|].
  destruct (Z.eqb_spec i (currentMinute r)); [tauto|].
  destruct (i =? currentHour r)%Z; split; (discriminate || tauto).
Qed.

Lemma classNames_hour (r : ClockReads) (i : Z) :
  classNames r i = "svg-minute active-hour" <->
  i = currentHour r /\ i <> currentSecond r /\ i <> currentMinute r.
Proof.
  unfold classNames.
  destruct (Z.eqb_spec i (currentSecond r)); [split; [discriminate|tauto]|].
  destruct (Z.eqb_spec i (currentMinute r)); [split; [discriminate|tauto]|].
  destruct (Z.eqb_spec i (currentHour r)); split; (discriminate || tauto).
Qed.

Lemma classNames_default (r : ClockReads) (i : Z) :
  classNames r i = "svg-minute" <->
  i <> currentSecond r /\ i <> currentMinute r /\ i <> currentHour r.
Proof.
  unfold classNames.
  destruct (Z.eqb_spec i (currentSecond r)); [split; [discriminate|tauto]|].
  destruct (Z.eqb_spec i (currentMinute r)); [split; [discriminate|tauto]|].
  destruct (Z.eqb_spec i (currentHour r)); split; (discriminate || tauto).
Qed.

Lemma classOfLabel_minuteLabels (r : ClockReads) (i : Z) :
  (1 <= i <= 60)%Z ->
  classOfLabel (minuteLabels r) i = Some (classNames r i).
Proof.
  intros Hi. unfold classOfLabel, minuteLabels.
  rewrite find_label_seq by (cbn; (reflexivity || lia)).
  cbn. do 2 f_equal. lia.
Qed.

Lemma countClass_minuteLabels (r : ClockReads) (c : string) :
  countClass c (minuteLabels r) =
  List.length (filter (fun idx => classNames r (Z.of_nat idx + 1) =? c) (seq 0 60)).
Proof.
  unfold countClass, minuteLabels. rewrite filter_map_length. reflexivity.
Qed.

(** A class carried exactly by the label numbered [k] is carried once. *)
Lemma countClass_unique (r : ClockReads) (c : string) (k : Z) :
  (1 <= k <= 60)%Z ->
  (forall i, (1 <= i <= 60)%Z -> classNames r i = c <-> i = k) ->
  countClass c (minuteLabels r) = 1%nat.
Proof.
  intros Hk Hc. rewrite countClass_minuteLabels.
  apply (count_seq_unique _ (Z.to_nat (k - 1))); [lia|].
  intros j Hj. rewrite String.eqb_eq, Hc by lia. lia.
Qed.

Lemma countClass_absent (r : ClockReads) (c : string) :
  (forall i, (1 <= i <= 60)%Z -> classNames r i <> c) ->
  countClass c (minuteLabels r) = 0%nat.
Proof.
  intros Hc. rewrite countClass_minuteLabels.
  apply count_seq_none. intros j Hj.
  apply String.eqb_neq, Hc. lia.
Qed.

(** X16. When the six clock reads of a render all return the same valid
    date [t], the sixty minute labels are numbered 1 to 60 and: exactly one
    carries "active-second", the one numbered by the second (60 for 0);
    "active-minute" is carried by the label numbered by the minute (60 for 0)
    and by no other, unless that label is the active-second one, and then by
    none; "active-hour" is carried by the label numbered by the hour mod 12
    (12 for 0) and by no other, unless that label is the active-second or the
    active-minute one, and then by none; every other label has the default
    class. *)
Theorem minute_labels_classification (t : Date) :
  validDate t ->
  let s := (if getSeconds t =? 0 then 60 else getSeconds t)%Z in
  let m := (if getMinutes t =? 0 then 60 else getMinutes t)%Z in
  let h := (if getHours t mod 12 =? 0 then 12 else getHours t mod 12)%Z in
  let labels := minuteLabels (readsAt t) in
  map label labels = map Z.of_nat (seq 1 60) /\
  countClass "svg-minute active-second" labels = 1%nat /\
  classOfLabel labels s = Some "svg-minute active-second" /\
  countClass "svg-minute active-minute" labels =
    (if (m =? s)%Z then 0 else 1)%nat /\
  (m <> s -> classOfLabel labels m = Some "svg-minute active-minute") /\
  countClass "svg-minute active-hour" labels =
    (if (h =? s)%Z || (h =? m)%Z then 0 else 1)%nat /\
  (h <> s -> h <> m -> classOfLabel labels h = Some "svg-minute active-hour") /\
  (forall i, (1 <= i <= 60)%Z -> i <> s -> i <> m -> i <> h ->
     classOfLabel labels i = Some "svg-minute").
Proof.
  intros Hv s m h labels.
  destruct (current_at t Hv) as (Es & Em & Eh & Hs & Hm & Hh).
  fold s in Es. fold m in Em. fold h in Eh.
  set (r := readsAt t) in *. rewrite Es in Hs. rewrite Em in Hm. rewrite Eh in Hh.
  split; [reflexivity|].
  split.
  { apply (countClass_unique r _ s Hs). intros i _.
    rewrite classNames_second. rewrite Es. tauto. }
  split.
  { unfold labels. rewrite classOfLabel_minuteLabels by exact Hs.
    f_equal. apply classNames_second. exact (eq_sym Es). }
  split.
  { destruct (Z.eqb_spec m s) as [E|E].
    - apply countClass_absent. intros i _ Hc.
      apply classNames_minute in Hc. rewrite Es, Em in Hc. lia.
    - apply (countClass_unique r _ m Hm). intros i _.
      rewrite classNames_minute, Es, Em. lia. }
  split.
  { intros E. unfold labels. rewrite classOfLabel_minuteLabels by exact Hm.
    f_equal. apply classNames_minute. rewrite Es, Em. tauto. }
  split.
  { destruct (Z.eqb_spec h s) as [E|E]; [|destruct (Z.eqb_spec h m) as [E'|E']];
      cbn [orb].
    - apply countClass_absent. intros i _ Hc.
      apply classNames_hour in Hc. rewrite Es, Em, Eh in Hc. lia.
    - apply countClass_absent. intros i _ Hc.
      apply classNames_hour in Hc. rewrite Es, Em, Eh in Hc. lia.
    - apply (countClass_unique r _ h); [lia|]. intros i _.
      rewrite classNames_hour, Es, Em, Eh. lia. }
  split.
  { intros E E'. unfold labels. rewrite classOfLabel_minuteLabels by lia.
    f_equal. apply classNames_hour. rewrite Es, Em, Eh. tauto. }
  intros i Hi E1 E2 E3. unfold labels.
  rewrite classOfLabel_minuteLabels by exact Hi.
  f_equal. apply classNames_default. rewrite Es, Em, Eh. tauto.
Qed.

Lemma minute_labels_classification_witness :
  validDate (mkDate 15 0 7 250) /\
  countClass "svg-minute active-second" (minuteLabels (readsAt (mkDate 15 0 7 250)))
    = 1%nat /\
  classOfLabel (minuteLabels (readsAt (mkDate 15 0 7 250))) 7
    = Some "svg-minute active-second".
Proof.
  assert (Hv : validDate (mkDate 15 0 7 250)) by (unfold validDate; simpl; lia).
  pose proof (minute_labels_classification _ Hv) as H. cbv zeta in H.
  split; [exact Hv|].
  split; [exact (proj1 (proj2 H)) | exact (proj1 (proj2 (proj2 H)))].
Defined.

(** When the hour and the second name the same label, it is shown as the
    second and no label is shown as the hour (03:20:03). *)
Example labels_032003 :
  let labels := minuteLabels (readsAt (mkDate 3 20 3 0)) in
  classOfLabel labels 3 = Some "svg-minute active-second" /\
  classOfLabel labels 20 = Some "svg-minute active-minute" /\
  countClass "svg-minute active-hour" labels = 0%nat /\
  countClass "svg-minute" labels = 58%nat.
Proof. repeat split. Qed.

(** C3, the code at the failing input. The two reads of the seconds are
    separate calls of [new Date()]. A render starts at 10:04:59.999 and the
    next minute begins before its second call: the test of the first read
    sees 59, the value of the second read is 0, and no label is numbered 0.
    Not one of the sixty labels is shown as the second, where the claim has
    exactly one; label 5 is shown as the minute and label 10 as the hour, and
    the other fifty-eight have the default class. *)
Theorem second_reads_across_minute :
  let r := mkReads (mkDate 10 4 59 999) (mkDate 10 5 0 0) (mkDate 10 5 0 0)
             (mkDate 10 5 0 0) (mkDate 10 5 0 0) (mkDate 10 5 0 0) in
  currentSecond r = 0%Z /\
  countClass "svg-minute active-second" (minuteLabels r) = 0%nat /\
  classOfLabel (minuteLabels r) 60 = Some "svg-minute" /\
  classOfLabel (minuteLabels r) 5 = Some "svg-minute active-minute" /\
  classOfLabel (minuteLabels r) 10 = Some "svg-minute active-hour" /\
  countClass "svg-minute" (minuteLabels r) = 58%nat.
Proof. repeat split. Qed.

(** *** The accessible name and the digital readout *)

(** C7 as stated fails: with the 24-hour format, at 03:05:09 the label of
    the clock element is not the text of the digital readout. *)
Lemma ariaLabel_differs_from_digital :
  let out := render hhmmss (mkDate 3 5 9 500) (readsAt (mkDate 3 5 9 500)) in
  digital out = "03:05:09" /\
  ariaLabel out = "Analog clock showing 03:05:09" /\
  ariaLabel out <> digital out.
Proof. cbv zeta. repeat split. discriminate. Qed.

(** C7, amended. At every render and for every time format, the clock
    element has the role "img" and its label is the text of the digital
    readout of that render after the words "Analog clock showing "; it is 21
    characters longer than the readout. *)
Theorem ariaLabel_is_prefixed_digital
  (toLocaleTimeString : Date -> string) (now : Date) (r : ClockReads) :
  let out := render toLocaleTimeString now r in
  role out = "img" /\
  digital out = toLocaleTimeString now /\
  ariaLabel out = "Analog clock showing " ++ digital out /\
  String.length (ariaLabel out) = (21 + String.length (digital out))%nat.
Proof.
  cbv zeta. repeat split.
Qed.

(** *** What the render depends on *)

(** The hands, the label of the clock element and the readout are computed
    from the state cell alone. *)
Lemma render_state_part
  (toLocaleTimeString : Date -> string) (now : Date) (r r' : ClockReads) :
  let out := render toLocaleTimeString now r in
  let out' := render toLocaleTimeString now r' in
  hourHand out = hourHand out' /\ minuteHand out = minuteHand out' /\
  secondHand out = secondHand out' /\ ariaLabel out = ariaLabel out' /\
  digital out = digital out'.
Proof. cbv zeta. repeat split. Qed.

(** The labels are computed from the clock reads alone. *)
Lemma render_labels_ignore_state
  (toLocaleTimeString : Date -> string) (now now' : Date) (r : ClockReads) :
  svgTexts (render toLocaleTimeString now r) =
  svgTexts (render toLocaleTimeString now' r).
Proof. reflexivity. Qed.

(** C8, the code at the failing input. The state cell holds 12:00:00.999 in
    two renders; the clock reads 12:00:00.999 during one and 12:00:01.003
    during the other. The hands and the readout agree, the classes of the
    minute labels do not: label 60 is the active second in the first and
    label 1 in the second. *)
Theorem labels_differ_for_one_state :
  let now := mkDate 12 0 0 999 in
  let out1 := render hhmmss now (readsAt (mkDate 12 0 0 999)) in
  let out2 := render hhmmss now (readsAt (mkDate 12 0 1 3)) in
  secondHand out1 = secondHand out2 /\ digital out1 = digital out2 /\
  classOfLabel (svgTexts out1) 60 = Some "svg-minute active-second" /\
  classOfLabel (svgTexts out2) 60 = Some "svg-minute active-minute" /\
  classOfLabel (svgTexts out2) 1 = Some "svg-minute active-second" /\
  map className (svgTexts out1) <> map className (svgTexts out2).
Proof.
  cbv zeta. repeat split.
  vm_compute. discriminate.
Qed.

(** ** Properties of the ticker and of the refresher *)

Local Open Scope Z_scope.

Lemma filter_nil_when {A : Type} (p : A -> bool) (l : list A) :
  (forall a, In a l -> p a = false) -> filter p l = [].
Proof.
  induction l as [|a l IH]; intros H; simpl; [reflexivity|].
  rewrite (H a) by (left; reflexivity). apply IH. intros b Hb. apply H. now right.
Qed.

Lemma nil_when_empty {A : Type} (l : list A) :
  (forall a, In a l -> False) -> l = [].
Proof.
  destruct l as [|a l]; [reflexivity|]. intros H. destruct (H a). now left.
Qed.

(** The delay asked of [setTimeout] is positive, so it is also the delay the
    platform applies. *)
Lemma delay_positive (c : Z) : Z.max 0 (1000 - Z.rem c 1000) = 1000 - Z.rem c 1000.
Proof.
  pose proof (Z.rem_bound_abs c 1000 ltac:(lia)). lia.
Qed.

(** For a clock after the epoch the delay leads to the next full second. *)
Lemma delay_to_boundary (c : Z) :
  0 <= c ->
  1000 - Z.rem c 1000 = 1000 - c mod 1000 /\
  1 <= 1000 - c mod 1000 <= 1000 /\
  (c + (1000 - c mod 1000)) mod 1000 = 0 /\
  c < c + (1000 - c mod 1000).
Proof.
  intros Hc. rewrite Z.rem_mod_nonneg by lia.
  pose proof (Z.mod_pos_bound c 1000 ltac:(lia)) as Hb.
  repeat split; try lia.
  pose proof (Z.div_mod c 1000 ltac:(lia)) as Hd.
  replace (c + (1000 - c mod 1000)) with ((c / 1000 + 1) * 1000) by lia.
  apply Z.mod_mul. lia.
Qed.

Section ComponentProperties.

Variable tz : Z.

(** *** What [runTick] and [loop] do to the world *)

Lemma runTick_effect (c1 c2 : Z) (w : World) :
  let delay := 1000 - Z.rem c2 1000 in
  runTick tz c1 c2 w =
  mkWorld c2 (newDate tz c1) (newDate tz c1 :: published w)
    (Some (nextTimeout w)) (rafRef w) (running w) (effectId w) (mounted w)
    (timeouts w ++ [mkTimeout (nextTimeout w) delay (c2 + delay)]) (frames w)
    (nextTimeout w + 1) (nextFrame w).
Proof.
  cbv zeta. unfold runTick, setTimeout, withTickRef, withTimeouts, withClock, setNow.
  cbn -[Z.rem Z.max Z.add Z.sub]. rewrite delay_positive. reflexivity.
Qed.

Lemma loop_effect (g : nat) (w : World) :
  loop g w =
  if isRunning g w
  then mkWorld (clock w) (now w) (published w) (tickRef w)
         (Some (nextFrame w)) (running w) (effectId w) (mounted w) (timeouts w)
         (frames w ++ [mkFrame (nextFrame w) g]) (nextTimeout w)
         (nextFrame w + 1)
  else w.
Proof.
  unfold loop. destruct (isRunning g w); reflexivity.
Qed.

(** *** The invariant *)

Lemma Inv_timeouts_handle (w : World) (t : Timeout) :
  Inv w -> In t (timeouts w) ->
  truthy (tickRef w) = true /\ timeoutHandle t = handleOf (tickRef w).
Proof.
  intros (Ht & _) Hin. destruct (Ht t Hin) as (E & Hne).
  rewrite E; cbn. split; [|reflexivity].
  destruct (Z.eqb_spec (timeoutHandle t) 0); [contradiction | reflexivity].
Qed.

Lemma Inv_frames_handle (w : World) (f : Frame) :
  Inv w -> In f (frames w) ->
  truthy (rafRef w) = true /\ frameHandle f = handleOf (rafRef w).
Proof.
  intros (_ & Hf & _) Hin. destruct (Hf f Hin) as (E & Hne).
  rewrite E; cbn. split; [|reflexivity].
  destruct (Z.eqb_spec (frameHandle f) 0); [contradiction | reflexivity].
Qed.

(** Removing the callback a ref points to leaves nothing pending. *)
Lemma Inv_clear_timeouts (w : World) (h : Z) :
  Inv w -> tickRef w = Some h ->
  filter (fun t => negb (timeoutHandle t =? h)) (timeouts w) = [].
Proof.
  intros HI E. apply filter_nil_when. intros t Hin.
  destruct (Inv_timeouts_handle w t HI Hin) as (_ & Eh).
  rewrite E in Eh; cbn in Eh. rewrite Eh, Z.eqb_refl. reflexivity.
Qed.

Lemma Inv_clear_frames (w : World) (h : Z) :
  Inv w -> rafRef w = Some h ->
  filter (fun f => negb (frameHandle f =? h)) (frames w) = [].
Proof.
  intros HI E. apply filter_nil_when. intros f Hin.
  destruct (Inv_frames_handle w f HI Hin) as (_ & Eh).
  rewrite E in Eh; cbn in Eh. rewrite Eh, Z.eqb_refl. reflexivity.
Qed.

Lemma find_timeout (w : World) (h : Z) (t : Timeout) :
  Inv w -> find (fun t => timeoutHandle t =? h) (timeouts w) = Some t ->
  In t (timeouts w) /\ tickRef w = Some h /\ mounted w = true.
Proof.
  intros HI Hf. apply find_some in Hf. destruct Hf as (Hin & Eh).
  apply Z.eqb_eq in Eh. split; [exact Hin|]. split.
  - destruct HI as (Ht & _). destruct (Ht t Hin) as (E & _). now rewrite E, Eh.
  - destruct HI as (_ & _ & Hm & _). destruct (mounted w); [reflexivity|].
    destruct (Hm eq_refl) as (E & _). rewrite E in Hin. destruct Hin.
Qed.

Lemma find_frame (w : World) (h : Z) (f : Frame) :
  Inv w -> find (fun f => frameHandle f =? h) (frames w) = Some f ->
  In f (frames w) /\ rafRef w = Some h /\ mounted w = true.
Proof.
  intros HI Hf. apply find_some in Hf. destruct Hf as (Hin & Eh).
  apply Z.eqb_eq in Eh. split; [exact Hin|]. split.
  - destruct HI as (_ & Hfr & _). destruct (Hfr f Hin) as (E & _). now rewrite E, Eh.
  - destruct HI as (_ & _ & Hm & _). destruct (mounted w); [reflexivity|].
    destruct (Hm eq_refl) as (_ & E). rewrite E in Hin. destruct Hin.
Qed.

Lemma Inv_init (c0 : Z) : Inv (initWorld tz c0).
Proof.
  unfold Inv, initWorld; cbn. repeat split; try lia; intros ? [].
Qed.

Lemma mountEffects_effect (c1 c2 : Z) (w : World) :
  let delay := 1000 - Z.rem c2 1000 in
  let g := S (effectId w) in
  mountEffects tz c1 c2 w =
  mkWorld c2 (newDate tz c1) (newDate tz c1 :: published w)
    (Some (nextTimeout w)) (Some (nextFrame w)) (g :: running w) g true
    (timeouts w ++ [mkTimeout (nextTimeout w) delay (c2 + delay)])
    (frames w ++ [mkFrame (nextFrame w) g])
    (nextTimeout w + 1) (nextFrame w + 1).
Proof.
  cbv zeta. unfold mountEffects. rewrite runTick_effect. reflexivity.
Qed.

(** After the clean-ups nothing is pending and the state cell is as it was. *)
Lemma unmountEffects_effect (w : World) :
  Inv w ->
  unmountEffects w =
  mkWorld (clock w) (now w) (published w) (tickRef w) (rafRef w)
    (filter (fun g' => negb (Nat.eqb (effectId w) g')) (running w))
    (effectId w) false [] [] (nextTimeout w) (nextFrame w).
Proof.
  intros HI.
  assert (Ht : (if truthy (tickRef w)
                then filter (fun t => negb (timeoutHandle t =? handleOf (tickRef w)))
                       (timeouts w)
                else timeouts w) = []).
  { destruct (truthy (tickRef w)) eqn:E.
    - destruct (tickRef w) as [h|] eqn:Er; [|discriminate].
      now apply Inv_clear_timeouts.
    - apply nil_when_empty. intros t Hin.
      destruct (Inv_timeouts_handle w t HI Hin) as (E' & _). congruence. }
  assert (Hf : (if truthy (rafRef w)
                then filter (fun f => negb (frameHandle f =? handleOf (rafRef w)))
                       (frames w)
                else frames w) = []).
  { destruct (truthy (rafRef w)) eqn:E.
    - destruct (rafRef w) as [h|] eqn:Er; [|discriminate].
      now apply Inv_clear_frames.
    - apply nil_when_empty. intros f Hin.
      destruct (Inv_frames_handle w f HI Hin) as (E' & _). congruence. }
  clear HI. destruct w as [ck nw pb tr rr rn ei mt ts fs nt nf].
  unfold unmountEffects, cleanupRefresher, cleanupTicker, clearTimeout,
    cancelAnimationFrame, withTimeouts, withFrames, withRunning, withMounted.
  cbn in Ht, Hf |- *.
  destruct (truthy tr); destruct (truthy rr) eqn:Er;
    repeat (rewrite ?Er, ?Ht, ?Hf; cbn); reflexivity.
Qed.

Lemma Inv_withClock (c : Z) (w : World) : Inv w -> Inv (withClock c w).
Proof. intros H; exact H. Qed.

Lemma Inv_step (e : Event) (w w' : World) :
  Inv w -> step tz e w = Some w' -> Inv w'.
Proof.
  intros HI Hs. pose proof HI as (Ht & Hf & Hm & Hnt & Hnf).
  destruct e as [c1 c2|h c1 c2|h c|c]; cbn [step] in Hs.
  - (* the effects run *)
    destruct (mounted w) eqn:Em; [discriminate|]. cbn [negb andb] in Hs.
    destruct ((clock w <=? c1) && (c1 <=? c2))%bool; [|discriminate].
    injection Hs as <-. rewrite mountEffects_effect.
    destruct (Hm eq_refl) as (E1 & E2). rewrite E1, E2.
    unfold Inv; cbn. repeat split; try lia; try discriminate.
    + destruct H as [<-|[]]; reflexivity.
    + destruct H as [<-|[]]; cbn; lia.
    + destruct H as [<-|[]]; reflexivity.
    + destruct H as [<-|[]]; cbn; lia.
  - (* a timeout callback runs *)
    destruct (find _ (timeouts w)) as [t|] eqn:Efind; [|discriminate].
    destruct (_ && _)%bool; [|discriminate].
    injection Hs as <-. rewrite runTick_effect.
    destruct (find_timeout w h t HI Efind) as (Hin & Er & Emt).
    unfold Inv; cbn. rewrite (Inv_clear_timeouts w h HI Er). cbn.
    repeat split; try lia; try congruence.
    + destruct H as [<-|[]]; reflexivity.
    + destruct H as [<-|[]]; cbn; lia.
    + apply Hf, H.
    + apply Hf, H.
  - (* a frame callback runs *)
    destruct (find _ (frames w)) as [f|] eqn:Efind; [|discriminate].
    destruct (clock w <=? c); [|discriminate].
    injection Hs as <-. rewrite loop_effect.
    destruct (find_frame w h f HI Efind) as (Hin & Er & Emt).
    destruct (isRunning _ _); unfold Inv; cbn;
      rewrite (Inv_clear_frames w h HI Er); cbn;
      repeat split; try lia; try congruence; try (intros ? []).
    + apply Ht, H.
    + apply Ht, H.
    + destruct H as [<-|[]]; reflexivity.
    + destruct H as [<-|[]]; cbn; lia.
    + apply Ht, H.
    + apply Ht, H.
  - (* the clean-ups run *)
    destruct (mounted w && (clock w <=? c))%bool; [|discriminate].
    injection Hs as <-.
    rewrite (unmountEffects_effect (withClock c w) (Inv_withClock c w HI)).
    unfold Inv; cbn. repeat split; try lia; intros ? [].
Qed.

Lemma Inv_run (tr : list Event) (w w' : World) :
  Inv w -> run tz tr w = Some w' -> Inv w'.
Proof.
  revert w; induction tr as [|e tr IH]; intros w HI Hr; cbn in Hr.
  - now injection Hr as <-.
  - destruct (step tz e w) as [w1|] eqn:Es; [|discriminate].
    exact (IH w1 (Inv_step e w w1 HI Es) Hr).
Qed.

Lemma reachable_Inv (w : World) : reachable tz w -> Inv w.
Proof.
  intros (c0 & tr & Hr). exact (Inv_run tr _ w (Inv_init c0) Hr).
Qed.

Lemma run_app (tr1 tr2 : list Event) (w : World) :
  run tz (tr1 ++ tr2) w =
  match run tz tr1 w with
  | Some w1 => run tz tr2 w1
  | None => None
  end.
Proof.
  revert w; induction tr1 as [|e tr1 IH]; intros w; cbn; [reflexivity|].
  destruct (step tz e w); [apply IH | reflexivity].
Qed.

Lemma reachable_step (e : Event) (w w' : World) :
  reachable tz w -> step tz e w = Some w' -> reachable tz w'.
Proof.
  intros (c0 & tr & Hr) Hs. exists c0, (tr ++ [e])%list.
  rewrite run_app, Hr. cbn. now rewrite Hs.
Qed.

End ComponentProperties.

(** *** The ticker *)

(** A run of [runTick], from the effect or from a timeout, leaves exactly the
    timeout it has set. *)
Lemma tick_step (tz : Z) (w w' : World) (e : Event) (c1 c2 : Z) :
  Inv w -> tickReads e = Some (c1, c2) -> step tz e w = Some w' ->
  let delay := 1000 - Z.rem c2 1000 in
  clock w <= c1 <= c2 /\
  exists rr rn ei mt fs nf,
    w' = mkWorld c2 (newDate tz c1) (newDate tz c1 :: published w)
           (Some (nextTimeout w)) rr rn ei mt
           [mkTimeout (nextTimeout w) delay (c2 + delay)] fs
           (nextTimeout w + 1) nf.
Proof.
  intros HI He Hs. cbv zeta.
  destruct e as [d1 d2|h d1 d2|h c|c]; try discriminate;
    injection He as -> ->; cbn [step] in Hs.
  - destruct (mounted w) eqn:Em; [discriminate|]. cbn [negb andb] in Hs.
    destruct (Z.leb_spec (clock w) c1); [|discriminate].
    destruct (Z.leb_spec c1 c2); [|discriminate].
    injection Hs as <-. rewrite mountEffects_effect.
    destruct HI as (_ & _ & Hm & _). destruct (Hm Em) as (-> & _).
    split; [lia|]. repeat eexists.
  - destruct (find _ (timeouts w)) as [t|] eqn:Efind; [|discriminate].
    destruct (Z.leb_spec (timeoutDue t) c1); [|discriminate].
    destruct (Z.leb_spec (clock w) c1); [|discriminate].
    destruct (Z.leb_spec c1 c2); [|discriminate].
    injection Hs as <-. rewrite runTick_effect.
    destruct (find_timeout w h t HI Efind) as (_ & Er & _).
    cbn. rewrite (Inv_clear_timeouts w h HI Er).
    split; [lia|]. repeat eexists.
Qed.

(** C4. On each firing of the ticker, with [c1] the clock when the time is
    captured and [c2] the clock when the delay is computed: the capture comes
    first, the captured time becomes the state and is the latest value
    published, and the one pending timeout is the one just set, for the delay
    1000 - (c2 % 1000) from [c2]; after the epoch this is 1000 - (c2 mod 1000),
    between 1 and 1000 ms, and ends on a full second. *)
Theorem ticker_firing (tz : Z) (w w' : World) (e : Event) (c1 c2 : Z) :
  reachable tz w -> tickReads e = Some (c1, c2) -> step tz e w = Some w' ->
  let delay := 1000 - Z.rem c2 1000 in
  c1 <= c2 /\
  now w' = newDate tz c1 /\
  published w' = newDate tz c1 :: published w /\
  timeouts w' = [mkTimeout (nextTimeout w) delay (c2 + delay)] /\
  tickRef w' = Some (nextTimeout w) /\
  (0 <= c2 ->
   delay = 1000 - c2 mod 1000 /\ 1 <= delay <= 1000 /\
   (c2 + delay) mod 1000 = 0).
Proof.
  intros Hr He Hs.
  destruct (tick_step tz w w' e c1 c2 (reachable_Inv tz w Hr) He Hs)
    as (Hc & rr & rn & ei & mt & fs & nf & ->).
  cbv zeta; cbn [now published timeouts tickRef].
  split; [lia|]. do 4 (split; [reflexivity|]).
  intros H. destruct (delay_to_boundary c2 H) as (E & Hb & Hm & _).
  rewrite E. repeat split; (lia || exact Hm).
Qed.

Lemma ticker_firing_witness :
  exists w w',
    step 0 (Mount 1500 1502) (initWorld 0 1400) = Some w /\
    step 0 (TimeoutFires 1 2007 2008) w = Some w' /\
    now w' = mkDate 0 0 2 7 /\
    timeouts w' = [mkTimeout 2 992 3000].
Proof.
  assert (R0 : reachable 0 (initWorld 0 1400)) by (exists 1400, []; reflexivity).
  pose (w := mountEffects 0 1500 1502 (initWorld 0 1400)).
  assert (S1 : step 0 (Mount 1500 1502) (initWorld 0 1400) = Some w)
    by reflexivity.
  pose (w' := runTick 0 2007 2008 (clearTimeout 1 w)).
  assert (S2 : step 0 (TimeoutFires 1 2007 2008) w = Some w') by reflexivity.
  pose proof (ticker_firing 0 w w' (TimeoutFires 1 2007 2008) 2007 2008
                (reachable_step 0 _ _ _ R0 S1) eq_refl S2) as H.
  exists w, w'. split; [exact S1|]. split; [exact S2|].
  split; [exact (proj1 (proj2 H)) | exact (proj1 (proj2 (proj2 (proj2 H))))].
Defined.





(** *** Unmounting *)

(** While nothing is pending and the view is unmounted, only running the
    effects again can happen. *)
Lemma idle_step (tz : Z) (e : Event) (w : World) :
  mounted w = false -> timeouts w = [] -> frames w = [] ->
  isMount e = false -> step tz e w = None.
Proof.
  intros Hm Ht Hf He.
  destruct e as [c1 c2|h c1 c2|h c|c]; try discriminate; cbn [step].
  - now rewrite Ht.
  - now rewrite Hf.
  - now rewrite Hm.
Qed.

Lemma idle_run (tz : Z) (tr : list Event) (w w' : World) :
  mounted w = false -> timeouts w = [] -> frames w = [] ->
  forallb (fun e => negb (isMount e)) tr = true ->
  run tz tr w = Some w' -> w' = w.
Proof.
  intros Hm Ht Hf Htr Hr. destruct tr as [|e tr]; cbn in Hr.
  - now injection Hr as <-.
  - cbn in Htr. apply andb_prop in Htr. destruct Htr as (He & _).
    rewrite (idle_step tz e w Hm Ht Hf) in Hr; [discriminate|].
    now destruct (isMount e).
Qed.

(** C6. When the clean-ups run in a reachable world, whatever is pending:
    the pending timeout and frame are canceled, the clean-ups themselves do
    not write the state, no timeout callback can run afterwards, and along
    every continuation in which the effects do not run again the state cell
    and the list of published values stay as they were at the clean-up. *)
Theorem unmount_cancels_ticker (tz : Z) (w w' : World) (c : Z) :
  reachable tz w -> step tz (Unmount c) w = Some w' ->
  timeouts w' = [] /\ frames w' = [] /\
  now w' = now w /\ published w' = published w /\
  (forall h c1 c2, step tz (TimeoutFires h c1 c2) w' = None) /\
  (forall tr w'',
     forallb (fun e => negb (isMount e)) tr = true ->
     run tz tr w' = Some w'' ->
     now w'' = now w /\ published w'' = published w).
Proof.
  intros Hr Hs. pose proof (reachable_Inv tz w Hr) as HI.
  cbn [step] in Hs.
  destruct (mounted w && (clock w <=? c))%bool; [|discriminate].
  injection Hs as <-.
  rewrite (unmountEffects_effect (withClock c w) (Inv_withClock c w HI)).
  cbn [timeouts frames now published withClock].
  do 4 (split; [reflexivity|]). split.
  - intros h c1 c2. reflexivity.
  - intros tr w'' Htr Hrun.
    apply idle_run in Hrun; try reflexivity; [|exact Htr].
    subst w''. split; reflexivity.
Qed.

Lemma unmount_cancels_ticker_witness :
  let w := mountEffects 0 1500 1502 (initWorld 0 1400) in
  exists w',
    timeouts w = [mkTimeout 1 498 2000] /\
    step 0 (Unmount 1700) w = Some w' /\
    timeouts w' = [] /\
    step 0 (TimeoutFires 1 2000 2000) w' = None.
Proof.
  cbv zeta.
  assert (R0 : reachable 0 (initWorld 0 1400)) by (exists 1400, []; reflexivity).
  assert (R1 : reachable 0 (mountEffects 0 1500 1502 (initWorld 0 1400))).
  { apply (reachable_step 0 (Mount 1500 1502) _ _ R0). reflexivity. }
  destruct (step 0 (Unmount 1700) (mountEffects 0 1500 1502 (initWorld 0 1400)))
    as [w'|] eqn:S; [|vm_compute in S; discriminate].
  pose proof (unmount_cancels_ticker 0 _ w' 1700 R1 S) as H.
  exists w'. split; [reflexivity|]. split; [reflexivity|].
  split; [exact (proj1 H) | exact (proj1 (proj2 (proj2 (proj2 (proj2 H)))) 1 2000 2000)].
Defined.

(** *** The refresher *)

(** The clean-ups do not write the state, whatever the refs hold. *)
Lemma unmountEffects_keeps_state (w : World) :
  now (unmountEffects w) = now w /\ published (unmountEffects w) = published w.
Proof.
  destruct w as [ck nw pb tr rr rn ei mt ts fs nt nf].
  unfold unmountEffects, cleanupRefresher, cleanupTicker, clearTimeout,
    cancelAnimationFrame, withTimeouts, withFrames, withRunning, withMounted.
  cbn. destruct (truthy tr); destruct (truthy rr) eqn:Er;
    repeat (rewrite ?Er; cbn); split; reflexivity.
Qed.

(** C9. Whatever the world, a run of [loop] leaves the state cell, the list
    of published values, the ticker's ref and the pending timeouts as they
    are: while its effect is running it only requests the next frame and
    stores the handle, and otherwise it does nothing.  In a step of the
    component, a frame callback changes neither the state cell nor the
    published values, and a step that changes either of them is a run of
    [runTick]. *)
Theorem refresher_leaves_state (tz : Z) (e : Event) (w w' : World) :
  step tz e w = Some w' ->
  (forall g w0,
     now (loop g w0) = now w0 /\ published (loop g w0) = published w0 /\
     tickRef (loop g w0) = tickRef w0 /\ timeouts (loop g w0) = timeouts w0 /\
     (isRunning g w0 = true ->
      frames (loop g w0) = (frames w0 ++ [mkFrame (nextFrame w0) g])%list /\
      rafRef (loop g w0) = Some (nextFrame w0)) /\
     (isRunning g w0 = false -> loop g w0 = w0)) /\
  (isFrame e = true -> now w' = now w /\ published w' = published w) /\
  (published w' <> published w -> isTick e = true) /\
  (now w' <> now w -> isTick e = true).
Proof.
  intros Hs. split.
  { intros g w0. rewrite loop_effect.
    destruct (isRunning g w0); cbn; repeat split; try discriminate; reflexivity. }
  assert (Hkeep : isTick e = false -> now w' = now w /\ published w' = published w).
  { intros He. destruct e as [c1 c2|h c1 c2|h c|c]; try discriminate;
      cbn [step] in Hs.
    - destruct (find _ (frames w)) as [f|]; [|discriminate].
      destruct (clock w <=? c); [|discriminate].
      injection Hs as <-. rewrite loop_effect.
      destruct (isRunning _ _); split; reflexivity.
    - destruct (mounted w && (clock w <=? c))%bool; [|discriminate].
      injection Hs as <-.
      exact (unmountEffects_keeps_state (withClock c w)). }
  split; [|split].
  - intros He. apply Hkeep. now destruct e.
  - intros Hne. destruct (isTick e) eqn:He; [reflexivity|].
    destruct (Hkeep eq_refl) as (_ & E). contradiction.
  - intros Hne. destruct (isTick e) eqn:He; [reflexivity|].
    destruct (Hkeep eq_refl) as (E & _). contradiction.
Qed.

Lemma refresher_leaves_state_witness :
  let w := mountEffects 0 1500 1502 (initWorld 0 1400) in
  exists w',
    step 0 (FrameFires 1 1516) w = Some w' /\
    now w' = now w /\ published w' = published w.
Proof.
  cbv zeta.
  destruct (step 0 (FrameFires 1 1516)
              (mountEffects 0 1500 1502 (initWorld 0 1400)))
    as [w'|] eqn:S; [|vm_compute in S; discriminate].
  exists w'. split; [reflexivity|].
  exact (proj1 (proj2 (refresher_leaves_state 0 _ _ w' S)) eq_refl).
Defined.

(** After a frame callback in a mounted view the next frame is pending. *)
Example refresher_reschedules :
  option_map frames
    (run 0 [Mount 1500 1502; FrameFires 1 1516; FrameFires 2 1533]
       (initWorld 0 1400)) = Some [mkFrame 3 1%nat].
Proof. vm_compute. reflexivity. Qed.

(** ** Further properties of the angle calculator *)

(** The hour hand's angle from the milliseconds gone in the half-day. *)
Lemma hoursAngle_closed_form (d : Date) :
  (hoursAngle (getAngles d) == inject_Z (millisOfHalfDay d) * (1 # 120000))%Q.
Proof.
  unfold millisOfHalfDay, millisOfHour, millisOfMinute, getAngles.
  cbn [hoursAngle]. rewrite !inject_Z_plus, !inject_Z_mult.
  unfold Qdiv. change (/ 1000)%Q with (1 # 1000)%Q. change (/ 60)%Q with (1 # 60)%Q.
  ring.
Qed.

Lemma millisOfHalfDay_valid (d : Date) :
  validDate d ->
  millisOfHalfDay d =
    3600000 * (getHours d mod 12) + 60000 * getMinutes d + 1000 * getSeconds d
    + getMilliseconds d /\
  0 <= millisOfHalfDay d < 43200000.
Proof.
  intros Hv. pose proof (hours_rem_12 d Hv) as Hr.
  pose proof (hours_rem_12_bound d Hv) as Hb.
  destruct Hv as (Hh & Hm & Hs & Hms).
  unfold millisOfHalfDay, millisOfHour, millisOfMinute. rewrite <- Hr. lia.
Qed.

Lemma hoursAngle_order (d1 d2 : Date) :
  (hoursAngle (getAngles d1) < hoursAngle (getAngles d2))%Q <->
  millisOfHalfDay d1 < millisOfHalfDay d2.
Proof.
  pose proof (hoursAngle_closed_form d1) as E1.
  pose proof (hoursAngle_closed_form d2) as E2.
  rewrite E1, E2, Zlt_Qlt. split; intros H; lra.
Qed.

(** X3. On valid dates the hour hand alone tells the time of the half-day:
    its angle is smaller exactly when less of the half-day has gone, and two
    dates give the same angle exactly when their hours agree modulo 12 and
    their minutes, seconds and milliseconds are equal. *)
Theorem hour_hand_tells_time (d1 d2 : Date) :
  validDate d1 -> validDate d2 ->
  ((hoursAngle (getAngles d1) < hoursAngle (getAngles d2))%Q <->
   millisOfHalfDay d1 < millisOfHalfDay d2) /\
  ((hoursAngle (getAngles d1) == hoursAngle (getAngles d2))%Q <->
   getHours d1 mod 12 = getHours d2 mod 12 /\
   getMinutes d1 = getMinutes d2 /\ getSeconds d1 = getSeconds d2 /\
   getMilliseconds d1 = getMilliseconds d2).
Proof.
  intros Hv1 Hv2. split; [apply hoursAngle_order|].
  pose proof (hoursAngle_closed_form d1) as E1.
  pose proof (hoursAngle_closed_form d2) as E2.
  destruct (millisOfHalfDay_valid d1 Hv1) as (F1 & _).
  destruct (millisOfHalfDay_valid d2 Hv2) as (F2 & _).
  pose proof (Z.mod_pos_bound (getHours d1) 12 ltac:(lia)) as B1.
  pose proof (Z.mod_pos_bound (getHours d2) 12 ltac:(lia)) as B2.
  destruct Hv1 as (_ & Hm1 & Hs1 & Hms1). destruct Hv2 as (_ & Hm2 & Hs2 & Hms2).
  rewrite E1, E2. split.
  - intros H.
    assert (E : millisOfHalfDay d1 = millisOfHalfDay d2).
    { apply (proj1 (inject_Z_injective _ _)). lra. }
    rewrite F1, F2 in E. lia.
  - intros (Eh & Em & Es & Ems). rewrite F1, F2, Eh, Em, Es, Ems. reflexivity.
Qed.

Lemma hour_hand_tells_time_witness :
  validDate (mkDate 3 5 9 500) /\ validDate (mkDate 15 5 9 500) /\
  (hoursAngle (getAngles (mkDate 3 5 9 500)) ==
   hoursAngle (getAngles (mkDate 15 5 9 500)))%Q.
Proof.
  assert (Hv1 : validDate (mkDate 3 5 9 500)) by (unfold validDate; simpl; lia).
  assert (Hv2 : validDate (mkDate 15 5 9 500)) by (unfold validDate; simpl; lia).
  split; [exact Hv1|]. split; [exact Hv2|].
  apply (proj2 (proj2 (hour_hand_tells_time _ _ Hv1 Hv2))).
  repeat split.
Defined.

(** ** Further properties of the view *)

Local Open Scope string_scope.

Lemma classNames_cases (r : ClockReads) (i : Z) :
  classNames r i = "svg-minute active-second" \/
  classNames r i = "svg-minute active-minute" \/
  classNames r i = "svg-minute active-hour" \/
  classNames r i = "svg-minute".
Proof.
  unfold classNames.
  destruct (i =? currentSecond r)%Z; [tauto|].
  destruct (i =? currentMinute r)%Z; [tauto|].
  destruct (i =? currentHour r)%Z; tauto.
Qed.

(** The four classes share out a list whose elements carry no other class. *)
Lemma countClass_partition (l : list SvgText) :
  Forall (fun t => className t = "svg-minute active-second" \/
                   className t = "svg-minute active-minute" \/
                   className t = "svg-minute active-hour" \/
                   className t = "svg-minute") l ->
  (countClass "svg-minute active-second" l +
   countClass "svg-minute active-minute" l +
   countClass "svg-minute active-hour" l +
   countClass "svg-minute" l = List.length l)%nat.
Proof.
  unfold countClass.
  induction 1 as [|t l Ht _ IH]; [reflexivity|].
  cbn [filter List.length].
  destruct Ht as [E|[E|[E|E]]]; rewrite E; cbn; lia.
Qed.

(** X4. Whatever the six clock reads return, every one of the sixty minute
    labels carries exactly one of the four classes: the numbers of labels
    shown as second, as minute, as hour and as default add up to 60. *)
Theorem minute_labels_partition (r : ClockReads) :
  List.length (minuteLabels r) = 60%nat /\
  (countClass "svg-minute active-second" (minuteLabels r) +
   countClass "svg-minute active-minute" (minuteLabels r) +
   countClass "svg-minute active-hour" (minuteLabels r) +
   countClass "svg-minute" (minuteLabels r) = 60)%nat.
Proof.
  assert (Hl : List.length (minuteLabels r) = 60%nat) by reflexivity.
  split; [exact Hl|]. rewrite countClass_partition; [exact Hl|].
  unfold minuteLabels.
  apply Forall_forall. intros t Ht. apply in_map_iff in Ht.
  destruct Ht as (idx & <- & _). cbn [className]. apply classNames_cases.
Qed.

Lemma onDial_spec (k : Z) : onDial k = true <-> (1 <= k <= 60)%Z.
Proof. unfold onDial. rewrite andb_true_iff, !Z.leb_le. tauto. Qed.

(** X5. Whatever the six clock reads return, at most one label carries each
    active class, by the numbers the reads yield: one label is shown as the
    second when that number is between 1 and 60, and none otherwise; one as
    the minute when that number is between 1 and 60 and is not the second's;
    one as the hour when that number is between 1 and 60 and is neither the
    second's nor the minute's.  In particular, when the first read of the
    seconds is not 0 and the second read is 0, no label is shown as the
    second. *)
Theorem minute_labels_counts (r : ClockReads) :
  let s := currentSecond r in
  let m := currentMinute r in
  let h := currentHour r in
  countClass "svg-minute active-second" (minuteLabels r) =
    (if onDial s then 1 else 0)%nat /\
  countClass "svg-minute active-minute" (minuteLabels r) =
    (if onDial m && negb (m =? s)%Z then 1 else 0)%nat /\
  countClass "svg-minute active-hour" (minuteLabels r) =
    (if onDial h && negb (h =? s)%Z && negb (h =? m)%Z then 1 else 0)%nat /\
  (getSeconds (secondTest r) <> 0%Z -> getSeconds (secondValue r) = 0%Z ->
   countClass "svg-minute active-second" (minuteLabels r) = 0%nat).
Proof.
  cbv zeta.
  assert (Hs : countClass "svg-minute active-second" (minuteLabels r) =
               (if onDial (currentSecond r) then 1 else 0)%nat).
  { destruct (onDial (currentSecond r)) eqn:E.
    - apply onDial_spec in E.
      apply (countClass_unique r _ (currentSecond r) E).
      intros i _. apply classNames_second.
    - apply countClass_absent. intros i Hi Hc.
      apply classNames_second in Hc. subst i.
      apply onDial_spec in Hi. congruence. }
  split; [exact Hs|]. split; [|split].
  - destruct (onDial (currentMinute r)) eqn:E; cbn [andb].
    + apply onDial_spec in E.
      destruct (Z.eqb_spec (currentMinute r) (currentSecond r)) as [E'|E'];
        cbn [negb andb].
      * apply countClass_absent. intros i _ Hc.
        apply classNames_minute in Hc. lia.
      * apply (countClass_unique r _ (currentMinute r) E).
        intros i _. rewrite classNames_minute. lia.
    + apply countClass_absent. intros i Hi Hc.
      apply classNames_minute in Hc. destruct Hc as (-> & _).
      apply onDial_spec in Hi. congruence.
  - destruct (onDial (currentHour r)) eqn:E; cbn [andb].
    + apply onDial_spec in E.
      destruct (Z.eqb_spec (currentHour r) (currentSecond r)) as [E1|E1];
        [|destruct (Z.eqb_spec (currentHour r) (currentMinute r)) as [E2|E2]];
        cbn [negb andb].
      * apply countClass_absent. intros i _ Hc.
        apply classNames_hour in Hc. lia.
      * apply countClass_absent. intros i _ Hc.
        apply classNames_hour in Hc. lia.
      * apply (countClass_unique r _ (currentHour r) E).
        intros i _. rewrite classNames_hour. lia.
    + apply countClass_absent. intros i Hi Hc.
      apply classNames_hour in Hc. destruct Hc as (-> & _).
      apply onDial_spec in Hi. congruence.
  - intros Ht Hv. rewrite Hs. unfold currentSecond.
    destruct (Z.eqb_spec (getSeconds (secondTest r)) 0); [contradiction|].
    rewrite Hv. reflexivity.
Qed.

Lemma minute_labels_counts_witness :
  let r := mkReads (mkDate 10 4 59 999) (mkDate 10 5 0 0) (mkDate 10 5 0 0)
             (mkDate 10 5 0 0) (mkDate 10 5 0 0) (mkDate 10 5 0 0) in
  getSeconds (secondTest r) <> 0%Z /\ getSeconds (secondValue r) = 0%Z /\
  countClass "svg-minute active-second" (minuteLabels r) = 0%nat.
Proof.
  cbv zeta. split; [discriminate|]. split; [reflexivity|].
  apply (proj2 (proj2 (proj2 (minute_labels_counts _))));
    [discriminate | reflexivity].
Defined.

Lemma angleOfLabel_minuteLabels (r : ClockReads) (i : Z) :
  (1 <= i <= 60)%Z -> angleOfLabel (minuteLabels r) i = Some (i * 6)%Z.
Proof.
  intros Hi. unfold angleOfLabel, minuteLabels.
  rewrite find_label_seq by (cbn; (reflexivity || lia)).
  cbn. do 2 f_equal. lia.
Qed.

(** X6. The dial, whatever the state and the clock reads: a render draws 72
    texts, the sixty minute labels first and the twelve hour numerals after
    them; the minute label [i] is placed at [6 i] degrees and the numeral [n]
    at [30 (n mod 12)] degrees, 12 on top; so the minute label [5 n] lies in
    the direction of the numeral [n]. *)
Theorem dial_layout
  (toLocaleTimeString : Date -> string) (now : Date) (r : ClockReads) :
  let texts := svgTexts (render toLocaleTimeString now r) in
  List.length texts = 72%nat /\
  firstn 60 texts = minuteLabels r /\ skipn 60 texts = hourLabels /\
  map label hourLabels = [12; 1; 2; 3; 4; 5; 6; 7; 8; 9; 10; 11]%Z /\
  (forall i, (1 <= i <= 60)%Z -> angleOfLabel (minuteLabels r) i = Some (6 * i)%Z) /\
  (forall n, (1 <= n <= 12)%Z ->
     angleOfLabel hourLabels n = Some (30 * (n mod 12))%Z /\
     angleOfLabel (minuteLabels r) (5 * n) = Some (30 * n)%Z /\
     ((30 * n) mod 360 = 30 * (n mod 12))%Z).
Proof.
  cbv zeta. cbn [svgTexts render].
  assert (Hl : List.length (minuteLabels r) = 60%nat) by reflexivity.
  split; [rewrite length_app, Hl; reflexivity|].
  split; [rewrite <- Hl, firstn_app, Nat.sub_diag, firstn_all;
          cbn [firstn]; apply app_nil_r|].
  split; [rewrite <- Hl, skipn_app, Nat.sub_diag, skipn_all; reflexivity|].
  split; [reflexivity|].
  split.
  { intros i Hi. rewrite angleOfLabel_minuteLabels by exact Hi. f_equal. lia. }
  intros n Hn.
  assert (Hin : In n (map Z.of_nat (seq 1 12))).
  { apply in_map_iff. exists (Z.to_nat n). split; [lia|]. apply in_seq. lia. }
  split; [|split].
  - cbn in Hin. repeat (destruct Hin as [<-|Hin]; [reflexivity|]). destruct Hin.
  - rewrite angleOfLabel_minuteLabels by lia. f_equal. lia.
  - cbn in Hin. repeat (destruct Hin as [<-|Hin]; [reflexivity|]). destruct Hin.
Qed.

(** ** Further properties of the ticker and of the refresher *)

Local Open Scope Z_scope.

Lemma Armed_step (tz : Z) (e : Event) (w w' : World) :
  Inv w -> Armed w -> step tz e w = Some w' -> Armed w'.
Proof.
  intros HI HA Hs. unfold Armed in HA.
  destruct e as [c1 c2|h c1 c2|h c|c]; cbn [step] in Hs.
  - destruct (mounted w) eqn:Em; [discriminate|]. cbn [negb andb] in Hs.
    destruct ((clock w <=? c1) && (c1 <=? c2))%bool; [|discriminate].
    injection Hs as <-. rewrite mountEffects_effect.
    destruct HA as (Et & Ef & Er). rewrite Et, Ef, Er.
    unfold Armed; cbn. split; [eexists; split; reflexivity|].
    split; [eexists; repeat split|reflexivity].
  - destruct (find _ (timeouts w)) as [t|] eqn:Efind; [|discriminate].
    destruct (_ && _)%bool; [|discriminate].
    injection Hs as <-. rewrite runTick_effect.
    destruct (find_timeout w h t HI Efind) as (Hin & Er & Emt).
    rewrite Emt in HA. destruct HA as (_ & Hf & Hr).
    unfold Armed; cbn. rewrite Emt, (Inv_clear_timeouts w h HI Er). cbn.
    split; [eexists; split; reflexivity|]. split; [exact Hf | exact Hr].
  - destruct (find _ (frames w)) as [f|] eqn:Efind; [|discriminate].
    destruct (clock w <=? c); [|discriminate].
    injection Hs as <-. rewrite loop_effect.
    destruct (find_frame w h f HI Efind) as (Hin & Er & Emt).
    rewrite Emt in HA. destruct HA as (Ht & (f0 & Ef & _ & Eg) & Hr).
    rewrite Ef in Hin. destruct Hin as [->|[]].
    assert (Erun : isRunning (frameEffect f)
                     (withClock c (cancelAnimationFrame h w)) = true).
    { unfold isRunning; cbn. rewrite Hr, Eg; cbn. now rewrite Nat.eqb_refl. }
    rewrite Erun. unfold Armed; cbn.
    rewrite Emt, (Inv_clear_frames w h HI Er). cbn.
    split; [exact Ht|]. split; [eexists; repeat split; exact Eg | exact Hr].
  - destruct (mounted w) eqn:Em; [|discriminate]. cbn [andb] in Hs.
    destruct (clock w <=? c); [|discriminate].
    injection Hs as <-.
    rewrite (unmountEffects_effect (withClock c w) (Inv_withClock c w HI)).
    destruct HA as (_ & _ & Hr). unfold Armed; cbn. rewrite Hr; cbn.
    now rewrite Nat.eqb_refl.
Qed.

Lemma Armed_run (tz : Z) (tr : list Event) (w w' : World) :
  Inv w -> Armed w -> run tz tr w = Some w' -> Armed w'.
Proof.
  revert w; induction tr as [|e tr IH]; intros w HI HA Hr; cbn in Hr.
  - now injection Hr as <-.
  - destruct (step tz e w) as [w1|] eqn:Es; [|discriminate].
    exact (IH w1 (Inv_step tz e w w1 HI Es) (Armed_step tz e w w1 HI HA Es) Hr).
Qed.

Lemma reachable_Armed (tz : Z) (w : World) : reachable tz w -> Armed w.
Proof.
  intros (c0 & tr & Hr).
  apply (Armed_run tz tr (initWorld tz c0) w (Inv_init tz c0)); [|exact Hr].
  unfold Armed; cbn. repeat split.
Qed.

(** X7. In every world the component can reach, across mounts and unmounts:
    while the view is mounted exactly one timeout and exactly one frame are
    pending, each the one its ref points to, and only the loop of the current
    run of the effect is running; while it is unmounted nothing is pending and
    no loop is running.  The ticker neither stalls nor piles up timers. *)
Theorem ticker_armed_while_mounted (tz : Z) (w : World) :
  reachable tz w -> Armed w.
Proof.
  intros (c0 & tr & Hr).
  assert (H0 : Armed (initWorld tz c0)) by (unfold Armed; cbn; repeat split).
  exact (Armed_run tz tr (initWorld tz c0) w (Inv_init tz c0) H0 Hr).
Qed.

Lemma ticker_armed_while_mounted_witness :
  exists w,
    run 0 [Mount 1500 1502; TimeoutFires 1 2007 2008; Unmount 2100;
           Mount 2200 2200; FrameFires 2 2216] (initWorld 0 1400) = Some w /\
    Armed w.
Proof.
  destruct (run 0 [Mount 1500 1502; TimeoutFires 1 2007 2008; Unmount 2100;
                   Mount 2200 2200; FrameFires 2 2216] (initWorld 0 1400))
    as [w|] eqn:R; [|vm_compute in R; discriminate].
  exists w. split; [reflexivity|].
  apply (ticker_armed_while_mounted 0).
  now exists 1400, [Mount 1500 1502; TimeoutFires 1 2007 2008; Unmount 2100;
                    Mount 2200 2200; FrameFires 2 2216].
Defined.

(** What a step does to the state cell and to the published values. *)
Lemma step_published (tz : Z) (e : Event) (w w' : World) :
  step tz e w = Some w' ->
  match tickReads e with
  | Some (c1, _) =>
      published w' = newDate tz c1 :: published w /\ now w' = newDate tz c1
  | None => published w' = published w /\ now w' = now w
  end.
Proof.
  intros Hs. destruct e as [c1 c2|h c1 c2|h c|c]; cbn [step tickReads] in *.
  - destruct (_ && _)%bool; [|discriminate]. injection Hs as <-.
    rewrite mountEffects_effect. split; reflexivity.
  - destruct (find _ (timeouts w)) as [t|]; [|discriminate].
    destruct (_ && _)%bool; [|discriminate]. injection Hs as <-.
    rewrite runTick_effect. split; reflexivity.
  - destruct (find _ (frames w)) as [f|]; [|discriminate].
    destruct (clock w <=? c); [|discriminate]. injection Hs as <-.
    rewrite loop_effect. destruct (isRunning _ _); split; reflexivity.
  - destruct (_ && _)%bool; [|discriminate]. injection Hs as <-.
    destruct (unmountEffects_keeps_state (withClock c w)) as (E1 & E2).
    split; [exact E2 | exact E1].
Qed.

Lemma hd_app_last {A : Type} (d a : A) (l : list A) :
  hd d (l ++ [a]) = hd a l.
Proof. destruct l; reflexivity. Qed.

Lemma run_published (tz : Z) (tr : list Event) (w w' : World) :
  run tz tr w = Some w' ->
  published w' = (rev (map (newDate tz) (firingTimes tr)) ++ published w)%list /\
  now w' = hd (now w) (rev (map (newDate tz) (firingTimes tr))).
Proof.
  revert w; induction tr as [|e tr IH]; intros w Hr; cbn [run] in Hr.
  - injection Hr as <-. split; reflexivity.
  - destruct (step tz e w) as [w1|] eqn:Es; [|discriminate].
    destruct (IH w1 Hr) as (Ep & En). pose proof (step_published tz e w w1 Es) as H.
    destruct e as [c1 c2|h c1 c2|h c|c]; cbn [tickReads firingTimes] in *;
      destruct H as (H1 & H2); rewrite Ep, En, H1, H2; cbn [map rev];
      rewrite <- ?app_assoc, ?hd_app_last; split; reflexivity.
Qed.

(** X8. Along every execution from the initial world, the values published
    with [setNow] are exactly the dates read at the start of the firings of
    the ticker, one for each firing and latest first, and the state cell holds
    the latest of them, or the initial date when the ticker has not fired. *)
Theorem published_follow_firings (tz c0 : Z) (tr : list Event) (w : World) :
  run tz tr (initWorld tz c0) = Some w ->
  published w = rev (map (newDate tz) (firingTimes tr)) /\
  List.length (published w) = List.length (filter isTick tr) /\
  now w = hd (newDate tz c0) (published w).
Proof.
  intros Hr. destruct (run_published tz tr _ w Hr) as (Ep & En).
  cbn [published now initWorld] in Ep, En. rewrite app_nil_r in Ep.
  split; [exact Ep|]. split; [|now rewrite Ep].
  rewrite Ep, length_rev, length_map. clear.
  induction tr as [|e tr IH]; [reflexivity|].
  destruct e; cbn; rewrite ?IH; reflexivity.
Qed.

Lemma published_follow_firings_witness :
  exists w,
    run 0 [Mount 1500 1502; FrameFires 1 1516; TimeoutFires 1 2007 2008]
      (initWorld 0 1400) = Some w /\
    published w = [mkDate 0 0 2 7; mkDate 0 0 1 500].
Proof.
  destruct (run 0 [Mount 1500 1502; FrameFires 1 1516; TimeoutFires 1 2007 2008]
              (initWorld 0 1400)) as [w|] eqn:R; [|vm_compute in R; discriminate].
  exists w. split; [reflexivity|].
  exact (proj1 (published_follow_firings 0 1400 _ w R)).
Defined.

Lemma rem_1000_cases (c : Z) :
  c = 1000 * (c ÷ 1000) + Z.rem c 1000 /\
  ((0 <= c /\ 0 <= Z.rem c 1000 < 1000 /\ Z.rem c 1000 = c mod 1000 /\
    c ÷ 1000 = c / 1000) \/
   (c < 0 /\ -1000 < Z.rem c 1000 <= 0 /\
    (Z.rem c 1000 = 0 <-> c mod 1000 = 0))).
Proof.
  split; [apply Z.quot_rem'|].
  destruct (Z.le_gt_cases 0 c) as [H|H].
  - left. pose proof (Z.mod_pos_bound c 1000 ltac:(lia)).
    rewrite Z.rem_mod_nonneg, Z.quot_div_nonneg by lia. repeat split; lia.
  - right. pose proof (Z.rem_bound_pos (- c) 1000 ltac:(lia) ltac:(lia)) as Hb.
    rewrite Z.rem_opp_l in Hb by lia.
    split; [lia|]. split; [lia|].
    rewrite Z.rem_divide, <- Z.mod_divide by lia. tauto.
Qed.

(** X9. The timeout set by [runTick], for every value [c2] of [Date.now()],
    also before the epoch: it is added after the pending ones under a fresh
    handle, it is due on a full second, between 1 and 1999 ms after [c2]; the
    delay is at most 1000 ms exactly when [c2] is not negative or is itself a
    full second, and then the timeout is due on the first full second after
    [c2]; for a negative [c2] off the full second the delay exceeds 1000 ms
    and the timeout is due one second after the first full second. *)
Theorem runTick_due_time (tz c1 c2 : Z) (w : World) :
  exists t,
    timeouts (runTick tz c1 c2 w) = (timeouts w ++ [t])%list /\
    timeoutHandle t = nextTimeout w /\
    timeoutDelay t = 1000 - Z.rem c2 1000 /\
    timeoutDue t = c2 + timeoutDelay t /\
    timeoutDue t mod 1000 = 0 /\
    1 <= timeoutDelay t <= 1999 /\
    (timeoutDelay t <= 1000 <-> 0 <= c2 \/ c2 mod 1000 = 0) /\
    (0 <= c2 \/ c2 mod 1000 = 0 -> timeoutDue t = 1000 * (c2 / 1000 + 1)) /\
    (c2 < 0 -> c2 mod 1000 <> 0 -> timeoutDue t = 1000 * (c2 / 1000 + 2)).
Proof.
  rewrite runTick_effect.
  exists (mkTimeout (nextTimeout w) (1000 - Z.rem c2 1000)
            (c2 + (1000 - Z.rem c2 1000))).
  cbn [timeouts timeoutHandle timeoutDelay timeoutDue].
  do 4 (split; [reflexivity|]).
  destruct (rem_1000_cases c2) as (Hq & Hc).
  pose proof (Z.div_mod c2 1000 ltac:(lia)) as Hd.
  pose proof (Z.mod_pos_bound c2 1000 ltac:(lia)) as Hm.
  split.
  { replace (c2 + (1000 - Z.rem c2 1000)) with ((c2 ÷ 1000 + 1) * 1000) by lia.
    apply Z.mod_mul. lia. }
  destruct Hc as [(H0 & Hb & Er & Eq)|(H0 & Hb & Ez)].
  - split; [lia|]. split; [split; intros; lia|]. split; intros; lia.
  - assert (Hr : Z.rem c2 1000 = 0 \/ Z.rem c2 1000 = c2 mod 1000 - 1000).
    { destruct (Z.eq_dec (Z.rem c2 1000) 0) as [E|E]; [now left|right].
      assert (Hm0 : c2 mod 1000 <> 0) by tauto.
      assert (E' : 1000 * (c2 ÷ 1000 - c2 / 1000 - 1) =
                   c2 mod 1000 - 1000 - Z.rem c2 1000) by lia.
      lia. }
    split; [lia|]. split; [|split].
    + split.
      * intros H. right. apply Ez. lia.
      * intros [H|H]; [lia|]. apply Ez in H. lia.
    + intros [H|H]; [lia|]. pose proof (proj2 Ez H). lia.
    + intros _ Hne. destruct Hr as [E|E]; [apply Ez in E; contradiction|]. lia.
Qed.




(** *** The clean-ups *)

Lemma filter_idem {A : Type} (p : A -> bool) (l : list A) :
  filter p (filter p l) = filter p l.
Proof.
  induction l as [|a l IH]; [reflexivity|]. cbn.
  destruct (p a) eqn:E; cbn; rewrite ?E, IH; reflexivity.
Qed.

(** X11. The two clean-ups can run in either order, and either of them more
    than once, with the same result in every world; and after the first
    one the second cancels nothing more: both cancel the frame [rafRef]
    points to. *)
Theorem cleanups_commute (g : nat) (w : World) :
  cleanupRefresher g (cleanupTicker w) = cleanupTicker (cleanupRefresher g w) /\
  cleanupTicker (cleanupTicker w) = cleanupTicker w /\
  cleanupRefresher g (cleanupRefresher g w) = cleanupRefresher g w /\
  frames (cleanupRefresher g (cleanupTicker w)) = frames (cleanupTicker w) /\
  timeouts (cleanupRefresher g (cleanupTicker w)) = timeouts (cleanupTicker w).
Proof.
  destruct w as [ck nw pb tr rr rn ei mt ts fs nt nf].
  unfold cleanupRefresher, cleanupTicker, clearTimeout, cancelAnimationFrame,
    withTimeouts, withFrames, withRunning.
  cbn. destruct (truthy tr) eqn:Et; destruct (truthy rr) eqn:Er;
    repeat (rewrite ?Et, ?Er; cbn); rewrite ?filter_idem;
    repeat split; reflexivity.
Qed.

(** *** Loops of earlier runs of the effect *)

Lemma not_running_after_cleanup (g : nat) (l : list nat) :
  existsb (Nat.eqb g) (filter (fun g' => negb (Nat.eqb g g')) l) = false.
Proof.
  induction l as [|a l IH]; [reflexivity|]. cbn.
  destruct (Nat.eqb g a) eqn:E; cbn; rewrite ?E; exact IH.
Qed.

(** X12. A [loop] closure whose effect has been cleaned up requests no
    frame, even if it is called: right after its clean-up in any world, and
    in every reachable world while the view is unmounted or when the closure
    belongs to an earlier run of the effect than the current one. *)
Theorem stale_loop_does_nothing (tz : Z) (g : nat) (w : World) :
  loop g (cleanupRefresher g w) = cleanupRefresher g w /\
  (reachable tz w -> mounted w = false \/ g <> effectId w -> loop g w = w).
Proof.
  split.
  - rewrite loop_effect.
    assert (E : isRunning g (cleanupRefresher g w) = false).
    { unfold isRunning, cleanupRefresher.
      destruct (truthy _); cbn; apply not_running_after_cleanup. }
    now rewrite E.
  - intros Hr Hg. rewrite loop_effect.
    pose proof (reachable_Armed tz w Hr) as HA.
    unfold Armed in HA. unfold isRunning.
    destruct (mounted w).
    + destruct HA as (_ & _ & Er). rewrite Er. cbn.
      destruct Hg as [Hg|Hg]; [discriminate|].
      destruct (Nat.eqb_spec g (effectId w)); [contradiction | reflexivity].
    + destruct HA as (_ & _ & Er). rewrite Er. reflexivity.
Qed.

Lemma stale_loop_does_nothing_witness :
  exists w,
    run 0 [Mount 1500 1502; Unmount 1700; Mount 1800 1800] (initWorld 0 1400)
      = Some w /\
    effectId w = 2%nat /\ loop 1 w = w.
Proof.
  destruct (run 0 [Mount 1500 1502; Unmount 1700; Mount 1800 1800]
              (initWorld 0 1400)) as [w|] eqn:R; [|vm_compute in R; discriminate].
  assert (E : effectId w = 2%nat).
  { vm_compute in R. injection R as <-. reflexivity. }
  exists w. split; [reflexivity|]. split; [exact E|].
  apply (proj2 (stale_loop_does_nothing 0 1 w)).
  - now exists 1400, [Mount 1500 1502; Unmount 1700; Mount 1800 1800].
  - right. rewrite E. discriminate.
Defined.

(** *** The ref of the dial *)

Lemma dialRefAfter_set {Element : Type}
  (calls : list (option Element)) (e : Element) :
  dialRefAfter calls (Some e) = Some e.
Proof.
  unfold dialRefAfter. induction calls as [|el calls IH]; [reflexivity|].
  cbn [fold_left]. destruct el; exact IH.
Qed.

(** X13. The ref of the dial keeps the first element it is given: after any
    sequence of calls of the callback, starting from [null], it holds the
    first element among the arguments ([null] if there is none); once it
    holds an element, no later call changes it, neither with another element
    nor with the [null] passed when the dial is detached. *)
Theorem dialRef_keeps_first {Element : Type}
  (calls : list (option Element)) :
  dialRefAfter calls None = firstElement calls /\
  (forall (e : Element) later, dialRefAfter later (Some e) = Some e) /\
  (forall (e : Element) before,
     firstElement before = Some e ->
     dialRefAfter (before ++ [None]) None = Some e).
Proof.
  assert (H : forall l : list (option Element),
             dialRefAfter l None = firstElement l).
  { induction l as [|el l IH]; [reflexivity|].
    destruct el as [e|]; [apply dialRefAfter_set | exact IH]. }
  split; [apply H|]. split; [intros e later; apply dialRefAfter_set|].
  intros e before Hb.
  assert (E : dialRefAfter (before ++ [None]) None =
              dialRefAfter [None] (dialRefAfter before None))
    by apply fold_left_app.
  rewrite E, H, Hb. reflexivity.
Qed.

Lemma dialRef_keeps_first_witness :
  dialRefAfter [None; Some 7; None; Some 8; None] None = Some 7.
Proof.
  rewrite (proj1 (dialRef_keeps_first [None; Some 7; None; Some 8; None])).
  reflexivity.
Defined.

(** ** The angle calculator on binary64 numbers *)

Lemma upto_In (n : nat) (z : Z) : 0 <= z < Z.of_nat n -> In z (upto n).
Proof.
  intros H. unfold upto. apply in_map_iff. exists (Z.to_nat z).
  split; [lia|]. apply in_seq. lia.
Qed.

Lemma numbers_In (n : nat) (z : Z) :
  0 <= z < Z.of_nat n -> In (Binary64.numberOfZ z) (numbers n).
Proof. intros H. unfold numbers. apply in_map, upto_In, H. Qed.

Lemma allAngles_sound (p : float -> bool) (h m s x : Z) :
  allAngles p = true ->
  0 <= h < 12 -> 0 <= m < 60 -> 0 <= s < 60 -> 0 <= x < 1000 ->
  p (Binary64.secondsAngle (Binary64.getAngles (mkDate h m s x))) = true /\
  p (Binary64.minutesAngle (Binary64.getAngles (mkDate h m s x))) = true /\
  p (Binary64.hoursAngle (Binary64.getAngles (mkDate h m s x))) = true.
Proof.
  unfold allAngles. cbv zeta. intros H Hh Hm Hs Hx.
  rewrite forallb_forall in H.
  specialize (H _ (numbers_In 60 s ltac:(lia))).
  rewrite forallb_forall in H.
  specialize (H _ (numbers_In 1000 x ltac:(lia))).
  apply andb_true_iff in H. destruct H as (H1 & H).
  rewrite forallb_forall in H.
  specialize (H _ (numbers_In 60 m ltac:(lia))).
  apply andb_true_iff in H. destruct H as (H2 & H).
  rewrite forallb_forall in H.
  specialize (H _ (numbers_In 12 h ltac:(lia))).
  unfold Binary64.getAngles.
  cbn [Binary64.secondsAngle Binary64.minutesAngle Binary64.hoursAngle
       getHours getMinutes getSeconds getMilliseconds].
  rewrite Z.rem_small by lia. repeat split; assumption.
Qed.

Lemma allSecondSteps_sound (s x : Z) :
  allSecondSteps = true -> 0 <= s < 60 -> 0 <= x < 1000 ->
  ~ (s = 59 /\ x = 999) ->
  (Binary64.secondsAngle (Binary64.getAngles (mkDate 0 0 s x)) <?
   Binary64.secondsAngle (Binary64.getAngles (nextMillisecond (mkDate 0 0 s x))))%float
  = true.
Proof.
  unfold allSecondSteps. cbv zeta. intros H Hs Hx Hlast.
  rewrite forallb_forall in H. specialize (H s (upto_In 60 s ltac:(lia))).
  rewrite forallb_forall in H. specialize (H x (upto_In 1000 x ltac:(lia))).
  apply orb_true_iff in H. destruct H as [H|H]; [|exact H].
  apply andb_true_iff in H. destruct H as (E1 & E2).
  apply Z.eqb_eq in E1, E2. tauto.
Qed.

Lemma allAngles_inRange : allAngles inRange = true.
Proof. vm_compute. reflexivity. Qed.

Lemma allSecondSteps_true : allSecondSteps = true.
Proof. vm_compute. reflexivity. Qed.

(** X14. On binary64 numbers, the Numbers the code computes with, the three
    angles of every valid date are at least 0 and less than 360: rounding
    never brings a hand to 360 degrees.  (All 43.2 million combinations of an
    hour modulo 12, a minute, a second and a millisecond are evaluated.) *)
Theorem binary64_angles_in_range (d : Date) :
  validDate d ->
  inRange (Binary64.secondsAngle (Binary64.getAngles d)) = true /\
  inRange (Binary64.minutesAngle (Binary64.getAngles d)) = true /\
  inRange (Binary64.hoursAngle (Binary64.getAngles d)) = true.
Proof.
  intros Hv. pose proof (hours_rem_12_bound d Hv) as Hb.
  destruct d as [h m s x]. destruct Hv as (Hh & Hm & Hs & Hx). cbn in *.
  destruct (allAngles_sound inRange (Z.rem h 12) m s x allAngles_inRange
              ltac:(lia) Hm Hs Hx) as (H1 & H2 & H3).
  repeat split; [exact H1 | exact H2 |].
  unfold Binary64.getAngles in H3 |- *.
  cbn [Binary64.hoursAngle getHours getMinutes getSeconds getMilliseconds]
    in H3 |- *.
  rewrite (Z.rem_small (Z.rem h 12) 12) in H3 by lia. exact H3.
Qed.

Lemma binary64_angles_in_range_witness :
  validDate (mkDate 23 59 59 999) /\
  inRange (Binary64.hoursAngle (Binary64.getAngles (mkDate 23 59 59 999))) = true.
Proof.
  assert (Hv : validDate (mkDate 23 59 59 999)) by (unfold validDate; simpl; lia).
  split; [exact Hv | exact (proj2 (proj2 (binary64_angles_in_range _ Hv)))].
Defined.

(** X15. On binary64 numbers the second hand moves strictly forward with
    every millisecond within a minute: for a valid date other than the last
    millisecond of its minute, the angle one millisecond later is greater. *)
Theorem binary64_second_hand_advances (d : Date) :
  validDate d ->
  ~ (getSeconds d = 59 /\ getMilliseconds d = 999) ->
  (Binary64.secondsAngle (Binary64.getAngles d) <?
   Binary64.secondsAngle (Binary64.getAngles (nextMillisecond d)))%float = true.
Proof.
  intros Hv Hlast. destruct d as [h m s x].
  destruct Hv as (_ & _ & Hs & Hx). cbn in Hs, Hx, Hlast.
  pose proof (allSecondSteps_sound s x allSecondSteps_true Hs Hx Hlast) as H.
  unfold nextMillisecond, Binary64.getAngles in H |- *.
  cbn [getHours getMinutes getSeconds getMilliseconds] in H |- *.
  destruct (x <? 999);
    cbn [Binary64.secondsAngle getSeconds getMilliseconds] in H |- *; exact H.
Qed.

Lemma binary64_second_hand_advances_witness :
  (Binary64.secondsAngle (Binary64.getAngles (mkDate 3 5 9 999)) <?
   Binary64.secondsAngle (Binary64.getAngles (mkDate 3 5 10 0)))%float = true.
Proof.
  apply (binary64_second_hand_advances (mkDate 3 5 9 999)).
  - unfold validDate; simpl; lia.
  - cbn. intros (E & _). discriminate.
Defined.

(** ** Instances of the properties above at given inputs *)

Lemma dial_layout_witness :
  angleOfLabel hourLabels 3 = Some 90 /\
  angleOfLabel (minuteLabels (readsAt (mkDate 3 5 9 500))) 15 = Some 90.
Proof.
  destruct (dial_layout hhmmss (mkDate 3 5 9 500) (readsAt (mkDate 3 5 9 500)))
    as (_ & _ & _ & _ & _ & H).
  destruct (H 3 ltac:(lia)) as (H1 & H2 & _).
  split; [exact H1 | exact H2].
Defined.

Lemma runTick_due_time_witness :
  exists t,
    timeouts (runTick 0 (-300) (-300) (initWorld 0 (-400))) = [t] /\
    timeoutDelay t = 1300 /\ timeoutDue t = 1000.
Proof.
  destruct (runTick_due_time 0 (-300) (-300) (initWorld 0 (-400)))
    as (t & Et & _ & Ed & Edue & _ & _ & _ & _ & Hneg).
  exists t. split; [exact Et|]. split; [exact Ed|].
  apply Hneg; [lia | discriminate].
Defined.
